(** * wikichat: the article processing pipeline of [scripts/process.py]

    A shallow embedding of the pipeline steps of [scripts/process.py]
    (chunk diff, vectorisation, batched store reconciliation, metadata
    upsert, admission loop) and the properties its specification states
    about them.

    The module only orchestrates: the data classes ([scripts.model]), the
    helpers ([scripts.utils]), the pipeline scheduler ([scripts.pipeline]),
    the metrics sink and the document store are imported.  What is imported
    is either kept a parameter (the answers of the store to a bulk insert,
    the embedding service, the fold of the recent-articles registry) or
    modelled from the specification, and marked as such.

    [utils.wrap_blocking_io(f, x)] runs [f x] and awaits its result; it is
    read as the call itself. The messages of the root logger
    ([logging.debug] and the like) and the timestamps they print are left
    out; the records of the [existing_chunks] logger are kept. *)

From stdpp Require Import gmap strings list fin_maps.
From Stdlib Require Import PrimFloat.

Set Default Proof Using "Type".
#[local] Set Warnings "-clear-no-such-hyp".
Open Scope string_scope.
Open Scope nat_scope.
Open Scope list_scope.

(** ** Data model ([scripts.model], fields as [process.py] reads them) *)

(** An embedding vector: [list[float]]. *)
Definition Vector : Type := list float.

Module ArticleMetadata.
Record t := mk { url : string }.
End ArticleMetadata.

Module Article.
Record t := mk { metadata : ArticleMetadata.t; content : string }.
End Article.

Module ChunkMetadata.
Record t := mk { index : nat; length : nat; hash : string }.
End ChunkMetadata.

Module Chunk.
Record t := mk { content : string; metadata : ChunkMetadata.t }.
End Chunk.

Module ChunkedArticle.
Record t := mk { article : Article.t; chunks : list Chunk.t }.
End ChunkedArticle.

(** [ChunkedArticleDiff(chunked_article=..., new_chunks=...)] leaves
    [deleted_chunks] and [unchanged_chunks] to their defaults, the empty
    list. *)
Module ChunkedArticleDiff.
Record t := mk {
  chunked_article : ChunkedArticle.t;
  new_chunks : list Chunk.t;
  deleted_chunks : list ChunkMetadata.t;
  unchanged_chunks : list Chunk.t
}.
End ChunkedArticleDiff.

Module VectoredChunk.
Record t := mk {
  vector : Vector;
  chunked_article : ChunkedArticle.t;
  chunk : Chunk.t
}.
End VectoredChunk.

Module VectoredChunkedArticleDiff.
Record t := mk {
  chunked_article : ChunkedArticle.t;
  new_chunks : list VectoredChunk.t;
  deleted_chunks : list ChunkMetadata.t
}.
End VectoredChunkedArticleDiff.

(** The hash of a chunk, [chunk.metadata.hash]. *)
Definition chunk_hash (c : Chunk.t) : string :=
  ChunkMetadata.hash (Chunk.metadata c).

(** A JSON value, as far as the documents of this module hold them. *)
Inductive JValue :=
| JStr (s : string)
| JNum (n : nat)
| JVec (v : Vector).

Module EmbeddingDocument.
Record t := mk {
  _id : string;
  url : string;
  chunk_index : nat;
  content : string;
  vector : Vector
}.

(** Modelled from the spec: [EmbeddingDocument.from_vectored_chunk] is in
    [scripts.model]. The stored unit is content-addressed: its [_id] is the
    chunk hash ([delete_vectored_chunks] deletes by [chunk.hash]), and it
    carries the chunk and its vector. *)
Definition from_vectored_chunk (vc : VectoredChunk.t) : t :=
  {| _id := chunk_hash (VectoredChunk.chunk vc);
     url := ArticleMetadata.url
              (Article.metadata (ChunkedArticle.article (VectoredChunk.chunked_article vc)));
     chunk_index := ChunkMetadata.index (Chunk.metadata (VectoredChunk.chunk vc));
     content := Chunk.content (VectoredChunk.chunk vc);
     vector := VectoredChunk.vector vc |}.

(** [to_dict()]: the document as a JSON object; the vector is under the key
    ["$vector"], the one [insert_vectored_chunks] pops. *)
Definition to_dict (d : t) : gmap string JValue :=
  <["_id" := JStr (_id d)]>
  (<["url" := JStr (url d)]>
  (<["chunk_index" := JNum (chunk_index d)]>
  (<["content" := JStr (content d)]>
  (<["$vector" := JVec (vector d)]> ∅)))).
End EmbeddingDocument.

Module ChunkedArticleMetadataOnly.
Record t := mk {
  _id : string;
  article_metadata : ArticleMetadata.t;
  chunks_metadata : gmap string ChunkMetadata.t
}.

(** The dict comprehension [{c.metadata.hash: c.metadata for c in chunks}]:
    a later chunk with the same hash overwrites the earlier entry. *)
Definition metadata_by_hash (chunks : list Chunk.t) : gmap string ChunkMetadata.t :=
  foldl (λ m c, <[chunk_hash c := Chunk.metadata c]> m) ∅ chunks.

(** Modelled from the spec: [from_chunked_article] is in [scripts.model].
    The snapshot of an article is keyed by the article's identity (its url)
    and maps each chunk hash to that chunk's metadata. *)
Definition from_chunked_article (ca : ChunkedArticle.t) : t :=
  {| _id := ArticleMetadata.url (Article.metadata (ChunkedArticle.article ca));
     article_metadata := Article.metadata (ChunkedArticle.article ca);
     chunks_metadata := metadata_by_hash (ChunkedArticle.chunks ca) |}.

(** Modelled from the spec: [from_vectored_diff] is in [scripts.model].
    The snapshot written after a pass is the one of the full current set of
    units, that is of the diff's chunked article (a vectored diff carries no
    unchanged chunks of its own). *)
Definition from_vectored_diff (vd : VectoredChunkedArticleDiff.t) : t :=
  from_chunked_article (VectoredChunkedArticleDiff.chunked_article vd).
End ChunkedArticleMetadataOnly.

(** The rolling registry of recently processed articles, one document. *)
Module RecentArticles.
Record t := mk { _id : string; articles : list ArticleMetadata.t }.
End RecentArticles.

(** ** The document store, as [process.py] talks to it *)

(** One entry of the ["errors"] list of a bulk insert response;
    [error.get("errorCode")] is [None] when the key is absent. *)
Record InsertError := { errorCode : option string; message : string }.

(** The response of [insert_many]: [resp["status"]["insertedIds"]] and
    [resp.get("errors", [])] (an absent key reads as the empty list). *)
Record InsertManyResponse := {
  insertedIds : list string;
  errors : list InsertError
}.

Inductive Collection := Embedding | Metadata | Suggestions.

(** What is submitted to the store, kept in order of submission. *)
Inductive Operation :=
| FindOne (filter_id : string)
| InsertMany (documents : list EmbeddingDocument.t)
             (ordered : bool) (partial_failures_allowed : bool)
| DeleteMany (ids : list string)
| FindOneAndReplace (filter_id : string) (upsert : bool).

(** Everything the steps read and write besides their arguments: the three
    collections, the in-process registry [RECENT_ARTICLES], the metric
    counters, the records of the [existing_chunks] logger and the requests
    submitted so far. *)
Record World := {
  EMBEDDING_COLLECTION : gmap string EmbeddingDocument.t;
  METADATA_COLLECTION : gmap string ChunkedArticleMetadataOnly.t;
  SUGGESTIONS_COLLECTION : gmap string RecentArticles.t;
  RECENT_ARTICLES : RecentArticles.t;
  METRICS : gmap string nat;
  existing_chunks_log : list (gmap string JValue);
  requests : list (Collection * Operation)
}.

(** ** Effects: state passing with exceptions

    An exception leaves the world as it is at the point of the raise:
    nothing is rolled back. *)

Inductive Exn :=
| ValueError (payload : list InsertError)
| EmbedError (reason : string).

Inductive result (A : Type) :=
| Ok (a : A)
| Raise (e : Exn).
Arguments Ok {A} a.
Arguments Raise {A} e.

Definition M (A : Type) : Type := World → result A * World.

Definition ret {A} (a : A) : M A := λ w, (Ok a, w).

Definition bind {A B} (m : M A) (k : A → M B) : M B :=
  λ w, match m w with
       | (Ok a, w') => k a w'
       | (Raise e, w') => (Raise e, w')
       end.

Definition raise {A} (e : Exn) : M A := λ w, (Raise e, w).

Definition modify (f : World → World) : M unit := λ w, (Ok tt, f w).

Definition gets {A} (f : World → A) : M A := λ w, (Ok (f w), w).

Declare Scope proc_scope.
Delimit Scope proc_scope with proc.
Notation "'let*' x := m 'in' k" := (bind m (λ x, k))
  (at level 10, x pattern, m at level 100, k at level 200) : proc_scope.
Notation "m ;;; k" := (bind m (λ _, k))
  (at level 100, k at level 200, right associativity) : proc_scope.
Open Scope proc_scope.

(** [for x in l: body(x)]; a raise in the body leaves the loop. *)
Fixpoint for_each {A} (l : list A) (body : A → M unit) : M unit :=
  match l with
  | [] => ret tt
  | x :: l' => body x ;;; for_each l' body
  end.

(** ** Collaborators

    What the module calls and does not define. A bulk insert is answered by
    the store: the collection after it and its response are a parameter, so
    that the theorems hold for whatever the store answers. *)
Class Collaborators := {
  insert_many :
    gmap string EmbeddingDocument.t → list EmbeddingDocument.t →
    gmap string EmbeddingDocument.t * InsertManyResponse;
  get_embeddings : list string → result (list Vector);
  update_and_clone :
    RecentArticles.t → ChunkedArticleMetadataOnly.t → RecentArticles.t
}.

Definition set_EMBEDDING_COLLECTION (c : gmap string EmbeddingDocument.t) (w : World) : World :=
  {| EMBEDDING_COLLECTION := c;
     METADATA_COLLECTION := METADATA_COLLECTION w;
     SUGGESTIONS_COLLECTION := SUGGESTIONS_COLLECTION w;
     RECENT_ARTICLES := RECENT_ARTICLES w;
     METRICS := METRICS w;
     existing_chunks_log := existing_chunks_log w;
     requests := requests w |}.

Definition set_METADATA_COLLECTION (c : gmap string ChunkedArticleMetadataOnly.t) (w : World) : World :=
  {| EMBEDDING_COLLECTION := EMBEDDING_COLLECTION w;
     METADATA_COLLECTION := c;
     SUGGESTIONS_COLLECTION := SUGGESTIONS_COLLECTION w;
     RECENT_ARTICLES := RECENT_ARTICLES w;
     METRICS := METRICS w;
     existing_chunks_log := existing_chunks_log w;
     requests := requests w |}.

Definition set_SUGGESTIONS_COLLECTION (c : gmap string RecentArticles.t) (w : World) : World :=
  {| EMBEDDING_COLLECTION := EMBEDDING_COLLECTION w;
     METADATA_COLLECTION := METADATA_COLLECTION w;
     SUGGESTIONS_COLLECTION := c;
     RECENT_ARTICLES := RECENT_ARTICLES w;
     METRICS := METRICS w;
     existing_chunks_log := existing_chunks_log w;
     requests := requests w |}.

Definition set_RECENT_ARTICLES (r : RecentArticles.t) (w : World) : World :=
  {| EMBEDDING_COLLECTION := EMBEDDING_COLLECTION w;
     METADATA_COLLECTION := METADATA_COLLECTION w;
     SUGGESTIONS_COLLECTION := SUGGESTIONS_COLLECTION w;
     RECENT_ARTICLES := r;
     METRICS := METRICS w;
     existing_chunks_log := existing_chunks_log w;
     requests := requests w |}.

Definition set_METRICS (m : gmap string nat) (w : World) : World :=
  {| EMBEDDING_COLLECTION := EMBEDDING_COLLECTION w;
     METADATA_COLLECTION := METADATA_COLLECTION w;
     SUGGESTIONS_COLLECTION := SUGGESTIONS_COLLECTION w;
     RECENT_ARTICLES := RECENT_ARTICLES w;
     METRICS := m;
     existing_chunks_log := existing_chunks_log w;
     requests := requests w |}.

Definition set_existing_chunks_log (l : list (gmap string JValue)) (w : World) : World :=
  {| EMBEDDING_COLLECTION := EMBEDDING_COLLECTION w;
     METADATA_COLLECTION := METADATA_COLLECTION w;
     SUGGESTIONS_COLLECTION := SUGGESTIONS_COLLECTION w;
     RECENT_ARTICLES := RECENT_ARTICLES w;
     METRICS := METRICS w;
     existing_chunks_log := l;
     requests := requests w |}.

Definition set_requests (r : list (Collection * Operation)) (w : World) : World :=
  {| EMBEDDING_COLLECTION := EMBEDDING_COLLECTION w;
     METADATA_COLLECTION := METADATA_COLLECTION w;
     SUGGESTIONS_COLLECTION := SUGGESTIONS_COLLECTION w;
     RECENT_ARTICLES := RECENT_ARTICLES w;
     METRICS := METRICS w;
     existing_chunks_log := existing_chunks_log w;
     requests := r |}.

(** A request leaves for the store. *)
Definition submit (c : Collection) (op : Operation) : M unit :=
  modify (λ w, set_requests (requests w ++ [(c, op)]) w).

(** Modelled from the spec: [find_one(filter={"_id": x})] answers the
    document stored under the key, or nothing
    ([resp["data"]["document"]]). *)
Definition METADATA_find_one (x : string) : M (option ChunkedArticleMetadataOnly.t) :=
  submit Metadata (FindOne x) ;;;
  gets (λ w, METADATA_COLLECTION w !! x).

(** [insert_many(documents=x, options={"ordered": False},
    partial_failures_allowed=True)]. *)
Definition EMBEDDING_insert_many {C : Collaborators}
    (x : list EmbeddingDocument.t) : M InsertManyResponse :=
  submit Embedding (InsertMany x false true) ;;;
  λ w, let r := insert_many (EMBEDDING_COLLECTION w) x in
       (Ok r.2, set_EMBEDDING_COLLECTION r.1 w).

(** Modelled from the spec: [delete_many(filter={"_id": {"$in": x}})]
    removes the documents stored under the given keys; a key that matches
    nothing is not an error. The response is not read. *)
Definition EMBEDDING_delete_many (x : list string) : M unit :=
  submit Embedding (DeleteMany x) ;;;
  modify (λ w, set_EMBEDDING_COLLECTION
                 (foldr delete (EMBEDDING_COLLECTION w) x) w).

(** Modelled from the spec: [find_one_and_replace(filter={"_id": x._id},
    replacement=x.to_dict(), options={"upsert": True})] stores the
    replacement under the key, whether or not a document was there. *)
Definition METADATA_find_one_and_replace (x : ChunkedArticleMetadataOnly.t) : M unit :=
  submit Metadata (FindOneAndReplace (ChunkedArticleMetadataOnly._id x) true) ;;;
  modify (λ w, set_METADATA_COLLECTION
                 (<[ChunkedArticleMetadataOnly._id x := x]> (METADATA_COLLECTION w)) w).

Definition SUGGESTIONS_find_one_and_replace (x : RecentArticles.t) : M unit :=
  submit Suggestions (FindOneAndReplace (RecentArticles._id x) true) ;;;
  modify (λ w, set_SUGGESTIONS_COLLECTION
                 (<[RecentArticles._id x := x]> (SUGGESTIONS_COLLECTION w)) w).

(** Modelled from the spec: the metrics sink has increment-only counters;
    [METRICS.update_chunks(k=n, ...)] and [METRICS.update_database(k=n, ...)]
    add [n] to the counter [k]. *)
Definition add_counters (m : gmap string nat) (kwargs : list (string * nat)) : gmap string nat :=
  foldl (λ m kv, <[kv.1 := m !!! kv.1 + kv.2]> m) m kwargs.

Definition METRICS_update_chunks (kwargs : list (string * nat)) : M unit :=
  modify (λ w, set_METRICS (add_counters (METRICS w) kwargs) w).

Definition METRICS_update_database (kwargs : list (string * nat)) : M unit :=
  modify (λ w, set_METRICS (add_counters (METRICS w) kwargs) w).

(** [existing_chunk_logger.warning(doc)]. *)
Definition existing_chunk_logger_warning (doc : gmap string JValue) : M unit :=
  modify (λ w, set_existing_chunks_log (existing_chunks_log w ++ [doc]) w).

(** [RECENT_ARTICLES.update_and_clone(new_metadata)]: the registry folds the
    article in and hands out a copy of itself. *)
Definition RECENT_ARTICLES_update_and_clone {C : Collaborators}
    (new_metadata : ChunkedArticleMetadataOnly.t) : M RecentArticles.t :=
  λ w, let r := update_and_clone (RECENT_ARTICLES w) new_metadata in
       (Ok r, set_RECENT_ARTICLES r w).

(** [embeddings.get_embeddings(texts)]. *)
Definition embeddings_get_embeddings {C : Collaborators}
    (texts : list string) : M (list Vector) :=
  λ w, (get_embeddings texts, w).

(** Modelled from the spec: [utils.batch_list] is in [scripts.utils]. It
    cuts a list into consecutive batches of [batch_size] elements, the last
    one holding the remainder. [fuel] bounds the number of batches; the
    length of the list is enough for a positive [batch_size]. *)
Fixpoint batch_list_from {A} (fuel : nat) (l : list A) (batch_size : nat) : list (list A) :=
  match fuel, l with
  | _, [] => []
  | 0, _ => []
  | S fuel', _ => take batch_size l :: batch_list_from fuel' (drop batch_size l) batch_size
  end.

Definition batch_list {A} (l : list A) (batch_size : nat) : list (list A) :=
  batch_list_from (length l) l batch_size.

(** ** The pipeline steps of [process.py] *)

Section Steps.
Context {C : Collaborators}.

(** [calc_chunk_diff]: what is new, deleted or unchanged, by chunk hash.
    [not prev_metadata_doc] holds when [find_one] found no document. *)
Definition calc_chunk_diff (chunked_article : ChunkedArticle.t) : M ChunkedArticleDiff.t :=
  let new_metadata := ChunkedArticleMetadataOnly.from_chunked_article chunked_article in
  let* prev_metadata_doc :=
    METADATA_find_one (ChunkedArticleMetadataOnly._id new_metadata) in
  match prev_metadata_doc with
  | None =>
      METRICS_update_chunks
        [("chunk_diff_new", length (ChunkedArticle.chunks chunked_article))] ;;;
      ret {| ChunkedArticleDiff.chunked_article := chunked_article;
             ChunkedArticleDiff.new_chunks := ChunkedArticle.chunks chunked_article;
             ChunkedArticleDiff.deleted_chunks := [];
             ChunkedArticleDiff.unchanged_chunks := [] |}
  | Some prev_metadata =>
      METRICS_update_database [("articles_read", 1)] ;;;
      let new_chunks :=
        filter (λ chunk, chunk_hash chunk
                  ∉ dom (ChunkedArticleMetadataOnly.chunks_metadata prev_metadata))
               (ChunkedArticle.chunks chunked_article) in
      let deleted_chunks :=
        filter (λ chunk_meta, ChunkMetadata.hash chunk_meta
                  ∉ dom (ChunkedArticleMetadataOnly.chunks_metadata new_metadata))
               (map_to_list (ChunkedArticleMetadataOnly.chunks_metadata prev_metadata)).*2 in
      let unchanged_chunks :=
        filter (λ chunk, chunk_hash chunk
                  ∈ dom (ChunkedArticleMetadataOnly.chunks_metadata prev_metadata))
               (ChunkedArticle.chunks chunked_article) in
      METRICS_update_chunks
        [("chunk_diff_new", length new_chunks);
         ("chunk_diff_deleted", length deleted_chunks);
         ("chunk_diff_unchanged", length unchanged_chunks)] ;;;
      ret {| ChunkedArticleDiff.chunked_article := chunked_article;
             ChunkedArticleDiff.new_chunks := new_chunks;
             ChunkedArticleDiff.deleted_chunks := deleted_chunks;
             ChunkedArticleDiff.unchanged_chunks := unchanged_chunks |}
  end.

(** [vectorize_diff]: [zip] pairs the vectors with the new chunks and stops
    at the shorter of the two. *)
Definition vectorize_diff (article_diff : ChunkedArticleDiff.t) : M VectoredChunkedArticleDiff.t :=
  let* vectors :=
    embeddings_get_embeddings
      (Chunk.content <$> ChunkedArticleDiff.new_chunks article_diff) in
  METRICS_update_chunks [("chunks_vectorized", length vectors)] ;;;
  ret {| VectoredChunkedArticleDiff.chunked_article :=
           ChunkedArticleDiff.chunked_article article_diff;
         VectoredChunkedArticleDiff.new_chunks :=
           zip_with (λ vector chunk,
                       {| VectoredChunk.vector := vector;
                          VectoredChunk.chunked_article :=
                            ChunkedArticleDiff.chunked_article article_diff;
                          VectoredChunk.chunk := chunk |})
                    vectors (ChunkedArticleDiff.new_chunks article_diff);
         VectoredChunkedArticleDiff.deleted_chunks :=
           ChunkedArticleDiff.deleted_chunks article_diff |}.

Definition batch_size : nat := 20.

(** [error.get("errorCode") == "DOCUMENT_ALREADY_EXISTS"]. *)
Definition already_exists (error : InsertError) : Prop :=
  errorCode error = Some "DOCUMENT_ALREADY_EXISTS".

#[global] Instance already_exists_dec error : Decision (already_exists error).
Proof. unfold already_exists. apply _. Defined.

(** The record [existing_chunk_logger] gets for a document:
    [doc = article_embedding.to_dict(); doc.pop("$vector", None)]. *)
Definition logged_doc (article_embedding : EmbeddingDocument.t) : gmap string JValue :=
  delete "$vector" (EmbeddingDocument.to_dict article_embedding).

(** The body of the loop of [insert_vectored_chunks], for one batch (the
    batch number only labels debug messages). *)
Definition insert_batch (batch : list VectoredChunk.t) : M unit :=
  let article_embeddings := EmbeddingDocument.from_vectored_chunk <$> batch in
  let* resp := EMBEDDING_insert_many article_embeddings in
  let errors := errors resp in
  let exists_errors := filter already_exists errors in
  (match exists_errors with
   | [] => ret tt
   | _ :: _ =>
       METRICS_update_database [("chunk_collision", length exists_errors)] ;;;
       let inserted_ids := insertedIds resp in
       for_each article_embeddings (λ article_embedding,
         if decide (EmbeddingDocument._id article_embedding ∈ inserted_ids)
         then ret tt
         else existing_chunk_logger_warning (logged_doc article_embedding))
   end) ;;;
  if decide (length errors ≠ length exists_errors)
  then raise (ValueError errors)
  else ret tt.

Definition insert_vectored_chunks (vectored_chunks : list VectoredChunk.t) : M unit :=
  for_each (batch_list vectored_chunks batch_size) insert_batch ;;;
  METRICS_update_database [("chunks_inserted", length vectored_chunks)].

Definition delete_vectored_chunks (chunks : list ChunkMetadata.t) : M unit :=
  for_each (batch_list chunks batch_size)
    (λ batch, EMBEDDING_delete_many (ChunkMetadata.hash <$> batch)) ;;;
  METRICS_update_database [("chunks_deleted", length chunks)].

Definition update_article_metadata (vectored_diff : VectoredChunkedArticleDiff.t) : M unit :=
  let new_metadata := ChunkedArticleMetadataOnly.from_vectored_diff vectored_diff in
  METADATA_find_one_and_replace new_metadata ;;;
  let* recent_articles := RECENT_ARTICLES_update_and_clone new_metadata in
  SUGGESTIONS_find_one_and_replace recent_articles ;;;
  METRICS_update_database [("articles_inserted", 1)].

Definition store_article_diff (article_diff : VectoredChunkedArticleDiff.t) : M VectoredChunkedArticleDiff.t :=
  insert_vectored_chunks (VectoredChunkedArticleDiff.new_chunks article_diff) ;;;
  delete_vectored_chunks (VectoredChunkedArticleDiff.deleted_chunks article_diff) ;;;
  update_article_metadata article_diff ;;;
  ret article_diff.

End Steps.

(** [process_article_metadata]: the pipeline is an object of
    [scripts.pipeline]; the loop only calls its [put_to_first_step], which
    answers whether the item was admitted and changes the pipeline. *)
Section Feed.
Context {Pipeline Item : Type}.
Variable put_to_first_step : Pipeline → Item → bool * Pipeline.

Fixpoint process_article_metadata (pipeline : Pipeline) (article_metadata : list Item) : bool * Pipeline :=
  match article_metadata with
  | [] => (true, pipeline)
  | metadata :: rest =>
      let r := put_to_first_step pipeline metadata in
      if r.1 then process_article_metadata r.2 rest else (false, r.2)
  end.

End Feed.

(** [create_pipeline] chains five steps behind an admission budget; the
    scheduler itself is [scripts.pipeline]. *)
Module AsyncPipeline.

(** Modelled from the spec: [scripts.pipeline] is not part of the sources.
    An item is [Pending] until a worker of the first stage takes it, then
    [InStage 1], ..., [InStage k], and [Completed] after the last stage, or
    [Failed] from any stage whose transform raises. *)
Inductive ItemState :=
| Pending
| InStage (k : nat)
| Completed
| Failed.

Record t := mk {
  max_items : nat;
  steps : nat;
  source_counter : nat;
  items : list (ArticleMetadata.t * ItemState)
}.

(** Modelled from the spec: admission counts the admitted items; once the
    counter has reached [max_items] it answers [False] and admits nothing. *)
Definition put_to_first_step (p : t) (item : ArticleMetadata.t) : bool * t :=
  if decide (source_counter p < max_items p)
  then (true, {| max_items := max_items p;
                 steps := steps p;
                 source_counter := S (source_counter p);
                 items := items p ++ [(item, Pending)] |})
  else (false, p).

(** One move of an item; [transform_ok k item] tells whether the transform
    of stage [k] succeeds on the item. *)
Definition advance (transform_ok : nat → ArticleMetadata.t → bool) (k_last : nat)
    (item : ArticleMetadata.t) (s : ItemState) : ItemState :=
  match s with
  | Pending => InStage 1
  | InStage k =>
      if transform_ok k item
      then (if decide (k < k_last) then InStage (S k) else Completed)
      else Failed
  | Completed => Completed
  | Failed => Failed
  end.

(** Every item in the pipeline makes one move; the admission counter is not
    consulted. *)
Definition step (transform_ok : nat → ArticleMetadata.t → bool) (p : t) : t :=
  {| max_items := max_items p;
     steps := steps p;
     source_counter := source_counter p;
     items := (λ it, (it.1, advance transform_ok (steps p) it.1 it.2)) <$> items p |}.

(** The pipeline left to run until every admitted item is through: an item
    needs one move into the first stage and one per stage. *)
Definition run (transform_ok : nat → ArticleMetadata.t → bool) (p : t) : t :=
  Nat.iter (S (steps p)) (step transform_ok) p.

End AsyncPipeline.

(** [create_pipeline(max_items=100)]: load, chunk, diff, vectorize, store. *)
Definition create_pipeline (max_items : nat) : AsyncPipeline.t :=
  {| AsyncPipeline.max_items := max_items;
     AsyncPipeline.steps := 5;
     AsyncPipeline.source_counter := 0;
     AsyncPipeline.items := [] |}.

(** ** An in-memory store and reference collaborators *)

Definition exists_error (id : string) : InsertError :=
  {| errorCode := Some "DOCUMENT_ALREADY_EXISTS"; message := id |}.

(** Modelled from the spec: an unordered bulk insert with partial failures
    allowed applies each document on its own; a document whose [_id] is
    already stored is refused with [DOCUMENT_ALREADY_EXISTS] and does not
    block the others. *)
Fixpoint mem_insert_many (coll : gmap string EmbeddingDocument.t)
    (documents : list EmbeddingDocument.t)
    : gmap string EmbeddingDocument.t * InsertManyResponse :=
  match documents with
  | [] => (coll, {| insertedIds := []; errors := [] |})
  | d :: ds =>
      match coll !! EmbeddingDocument._id d with
      | Some _ =>
          let r := mem_insert_many coll ds in
          (r.1, {| insertedIds := insertedIds r.2;
                   errors := exists_error (EmbeddingDocument._id d) :: errors r.2 |})
      | None =>
          let r := mem_insert_many (<[EmbeddingDocument._id d := d]> coll) ds in
          (r.1, {| insertedIds := EmbeddingDocument._id d :: insertedIds r.2;
                   errors := errors r.2 |})
      end
  end.

(** The same store behind a size limit on documents: a document whose
    content is longer than [limit] is refused with another error code. *)
Definition too_large_error (id : string) : InsertError :=
  {| errorCode := Some "DOCUMENT_TOO_LARGE"; message := id |}.

Definition limited_insert_many (limit : nat) (coll : gmap string EmbeddingDocument.t)
    (documents : list EmbeddingDocument.t)
    : gmap string EmbeddingDocument.t * InsertManyResponse :=
  let fits := filter (λ d, (String.length (EmbeddingDocument.content d) ≤ limit)%nat) documents in
  let large := filter (λ d, ¬ (String.length (EmbeddingDocument.content d) ≤ limit)%nat) documents in
  let r := mem_insert_many coll fits in
  (r.1, {| insertedIds := insertedIds r.2;
           errors := errors r.2 ++ ((λ d, too_large_error (EmbeddingDocument._id d)) <$> large) |}).

(** An embedding service that answers one vector per text, in order. *)
Definition unit_embeddings (texts : list string) : result (list Vector) :=
  Ok ((λ _, [1%float]) <$> texts).

(** A registry that keeps the most recent article first. *)
Definition push_recent (r : RecentArticles.t) (m : ChunkedArticleMetadataOnly.t) : RecentArticles.t :=
  {| RecentArticles._id := RecentArticles._id r;
     RecentArticles.articles :=
       ChunkedArticleMetadataOnly.article_metadata m :: RecentArticles.articles r |}.

Definition mem_collaborators : Collaborators :=
  {| insert_many := mem_insert_many;
     get_embeddings := unit_embeddings;
     update_and_clone := push_recent |}.

Definition limited_collaborators (limit : nat) : Collaborators :=
  {| insert_many := limited_insert_many limit;
     get_embeddings := unit_embeddings;
     update_and_clone := push_recent |}.

Definition empty_world : World :=
  {| EMBEDDING_COLLECTION := ∅;
     METADATA_COLLECTION := ∅;
     SUGGESTIONS_COLLECTION := ∅;
     RECENT_ARTICLES := {| RecentArticles._id := "recent_articles";
                           RecentArticles.articles := [] |};
     METRICS := ∅;
     existing_chunks_log := [];
     requests := [] |}.

(** ** Vocabulary of the statements *)

(** The store along a sequence of bulk inserts: its responses in order and
    the collection after the last one. *)
Fixpoint bulk_inserts {C : Collaborators} (coll : gmap string EmbeddingDocument.t)
    (batches : list (list EmbeddingDocument.t))
    : list InsertManyResponse * gmap string EmbeddingDocument.t :=
  match batches with
  | [] => ([], coll)
  | b :: bs =>
      let r := insert_many coll b in
      let rs := bulk_inserts r.1 bs in
      (r.2 :: rs.1, rs.2)
  end.

(** A response all of whose errors are [DOCUMENT_ALREADY_EXISTS]. *)
Definition tolerated (resp : InsertManyResponse) : Prop :=
  Forall already_exists (errors resp).

(** The documents of a batch the response does not list as inserted, as
    they are logged. *)
Definition not_inserted (docs : list EmbeddingDocument.t) (resp : InsertManyResponse)
    : list (gmap string JValue) :=
  logged_doc <$> filter (λ d, EmbeddingDocument._id d ∉ insertedIds resp) docs.

(** The documents of a batch of vectored chunks, as they are submitted. *)
Definition documents_of (batch : list VectoredChunk.t) : list EmbeddingDocument.t :=
  EmbeddingDocument.from_vectored_chunk <$> batch.

(** What the [existing_chunks] logger receives for a batch: nothing when the
    response reports no error, else the documents not listed as inserted. *)
Definition collision_records (docs : list EmbeddingDocument.t) (resp : InsertManyResponse)
    : list (gmap string JValue) :=
  match errors resp with
  | [] => []
  | _ :: _ => not_inserted docs resp
  end.

(** The bulk insert request of a batch. *)
Definition insert_request (batch : list VectoredChunk.t) : Collection * Operation :=
  (Embedding, InsertMany (documents_of batch) false true).

(** The hashes of a list of chunks, as a set. *)
Definition hashes (chunks : list Chunk.t) : gset string :=
  list_to_set (chunk_hash <$> chunks).

(** A snapshot keyed by the hashes of its entries, as [from_chunked_article]
    builds it. *)
Definition keyed_by_hash (m : gmap string ChunkMetadata.t) : Prop :=
  ∀ k meta, m !! k = Some meta → ChunkMetadata.hash meta = k.

(** The pipeline after the items of a list were offered to it in order. *)
Definition offer_all {Pipeline Item : Type}
    (put_to_first_step : Pipeline → Item → bool * Pipeline)
    (pipeline : Pipeline) (offered : list Item) : Pipeline :=
  foldl (λ p x, (put_to_first_step p x).2) pipeline offered.

(** Where an item of the five-step pipeline ends: [Completed] when the
    transform of every stage succeeds on it, else [Failed]. *)
Definition outcome (transform_ok : nat → ArticleMetadata.t → bool)
    (item : ArticleMetadata.t) : AsyncPipeline.ItemState :=
  if forallb (λ k, transform_ok k item) (seq 1 5)
  then AsyncPipeline.Completed else AsyncPipeline.Failed.

(** ** Sample data *)

Definition sample_article (body : string) : Article.t :=
  {| Article.metadata := {| ArticleMetadata.url := "https://en.wikipedia.org/wiki/Rocq" |};
     Article.content := body |}.

Definition sample_chunk (idx : nat) (text h : string) : Chunk.t :=
  {| Chunk.content := text;
     Chunk.metadata := {| ChunkMetadata.index := idx;
                          ChunkMetadata.length := String.length text;
                          ChunkMetadata.hash := h |} |}.


(** An article of three distinct chunks, and its next revision where the
    middle chunk has changed. *)
Definition article_v1 : ChunkedArticle.t :=
  {| ChunkedArticle.article := sample_article "abcdef";
     ChunkedArticle.chunks := [sample_chunk 0 "ab" "h-ab"; sample_chunk 1 "cd" "h-cd";
                               sample_chunk 2 "ef" "h-ef"] |}.

Definition article_v2 : ChunkedArticle.t :=
  {| ChunkedArticle.article := sample_article "abxyef";
     ChunkedArticle.chunks := [sample_chunk 0 "ab" "h-ab"; sample_chunk 1 "xy" "h-xy";
                               sample_chunk 2 "ef" "h-ef"] |}.

(** Vectored units with pairwise distinct one-character texts, hashed by
    their text. *)
Definition unit_text (i : nat) : string := String (Ascii.ascii_of_nat (33 + i)) "".

Definition sample_unit (i : nat) : VectoredChunk.t :=
  {| VectoredChunk.vector := [1%float];
     VectoredChunk.chunked_article := article_v1;
     VectoredChunk.chunk := sample_chunk i (unit_text i) (unit_text i) |}.

Definition sample_units (n : nat) : list VectoredChunk.t := sample_unit <$> seq 0 n.

(** A unit whose text is longer than one character. *)
Definition large_unit : VectoredChunk.t :=
  {| VectoredChunk.vector := [1%float];
     VectoredChunk.chunked_article := article_v1;
     VectoredChunk.chunk := sample_chunk 20 "a long chunk" "h-long" |}.

(** The world where one unit is already stored. *)
Definition world_with_unit (i : nat) : World :=
  set_EMBEDDING_COLLECTION
    {[ unit_text i := EmbeddingDocument.from_vectored_chunk (sample_unit i) ]}
    empty_world.

Definition sample_items (n : nat) : list ArticleMetadata.t :=
  (λ i, {| ArticleMetadata.url := unit_text i |}) <$> seq 0 n.

(** The world after a pass has stored the snapshot of an article. *)
Definition world_with_snapshot (ca : ChunkedArticle.t) : World :=
  set_METADATA_COLLECTION
    {[ ArticleMetadata.url (Article.metadata (ChunkedArticle.article ca))
       := ChunkedArticleMetadataOnly.from_chunked_article ca ]}
    empty_world.

(** ** The first steps of the pipeline, and the chain of one item *)

(** What [load_article] and [chunk_article] call: the scraper of
    [scripts.wikipedia], the text splitter of langchain and the digest of
    [hashlib] (the hex digest of the utf-8 bytes of a text). *)
Class Sources := {
  scrape_article : ArticleMetadata.t → result Article.t;
  split_text : string → list string;
  sha256_hexdigest : string → string
}.

Section FirstSteps.
Context {S : Sources} {C : Collaborators}.

(** [load_article]. *)
Definition load_article (meta : ArticleMetadata.t) : M Article.t :=
  λ w, (scrape_article meta, w).

(** [chunk_article]: the chunks of the splitter, each with its position,
    its length and its digest ([enumerate(zip(chunks, hashes))]). *)
Definition chunk_article (article : Article.t) : M ChunkedArticle.t :=
  let chunks := split_text (Article.content article) in
  let hashes := sha256_hexdigest <$> chunks in
  METRICS_update_chunks [("chunks_created", length chunks)] ;;;
  ret {| ChunkedArticle.article := article;
         ChunkedArticle.chunks :=
           imap (λ idx ch,
                   {| Chunk.content := ch.1;
                      Chunk.metadata :=
                        {| ChunkMetadata.index := idx;
                           ChunkMetadata.length := String.length ch.1;
                           ChunkMetadata.hash := ch.2 |} |})
                (zip chunks hashes) |}.

(** Modelled from the spec: [create_pipeline] chains the five steps, and
    the scheduler of [scripts.pipeline] hands the result of each step of an
    item to the next one, in this order; a step that raises ends the item. *)
Definition process_item (meta : ArticleMetadata.t) : M VectoredChunkedArticleDiff.t :=
  let* article := load_article meta in
  let* chunked_article := chunk_article article in
  let* article_diff := calc_chunk_diff chunked_article in
  let* vectored_diff := vectorize_diff article_diff in
  store_article_diff vectored_diff.

End FirstSteps.

(** Any collaborators, with the in-memory store behind the bulk insert. *)
Definition on_mem_store (get : list string → result (list Vector))
    (fold : RecentArticles.t → ChunkedArticleMetadataOnly.t → RecentArticles.t)
    : Collaborators :=
  {| insert_many := mem_insert_many;
     get_embeddings := get;
     update_and_clone := fold |}.

(** The delete request of a batch. *)
Definition delete_request (batch : list ChunkMetadata.t) : Collection * Operation :=
  (Embedding, DeleteMany (ChunkMetadata.hash <$> batch)).

(** The url under which the snapshot of a chunked article is stored. *)
Definition article_url (ca : ChunkedArticle.t) : string :=
  ArticleMetadata.url (Article.metadata (ChunkedArticle.article ca)).

(** Every hash the snapshot stored under a key lists is a stored
    embedding. *)
Definition snapshot_stored (w : World) (key : string) : Prop :=
  ∀ snapshot, METADATA_COLLECTION w !! key = Some snapshot →
              dom (ChunkedArticleMetadataOnly.chunks_metadata snapshot)
                ⊆ dom (EMBEDDING_COLLECTION w).

(** Sources for the samples: the scraper answers a fixed text, the splitter
    cuts a text into its characters, and a text stands for its digest. *)
Definition sample_sources : Sources :=
  {| scrape_article := λ meta, Ok {| Article.metadata := meta; Article.content := "abca" |};
     split_text := λ text, (λ a, String a "") <$> String.list_ascii_of_string text;
     sha256_hexdigest := λ text, String.append "sha-" text |}.

(** ** Snapshots *)

Lemma dom_foldl_insert (cs : list Chunk.t) (m : gmap string ChunkMetadata.t) :
  dom (foldl (λ m c, <[chunk_hash c := Chunk.metadata c]> m) m cs) = dom m ∪ hashes cs.
Proof.
  revert m. induction cs as [|c cs IH]; intros m; simpl.
  - unfold hashes. simpl. set_solver.
  - rewrite IH, dom_insert_L. unfold hashes. simpl. set_solver.
Qed.

Lemma dom_metadata_by_hash (cs : list Chunk.t) :
  dom (ChunkedArticleMetadataOnly.metadata_by_hash cs) = hashes cs.
Proof.
  unfold ChunkedArticleMetadataOnly.metadata_by_hash.
  rewrite dom_foldl_insert, dom_empty_L. set_solver.
Qed.

Lemma elem_of_hashes (h : string) (cs : list Chunk.t) :
  h ∈ hashes cs ↔ h ∈ chunk_hash <$> cs.
Proof. unfold hashes. apply elem_of_list_to_set. Qed.

Lemma foldl_insert_lookup (cs : list Chunk.t) (m : gmap string ChunkMetadata.t)
    (h : string) (meta : ChunkMetadata.t) :
  foldl (λ m c, <[chunk_hash c := Chunk.metadata c]> m) m cs !! h = Some meta →
  m !! h = Some meta ∨ ∃ c, c ∈ cs ∧ chunk_hash c = h ∧ Chunk.metadata c = meta.
Proof.
  revert m. induction cs as [|c cs IH]; intros m; simpl; [by left|].
  intros Hl. apply IH in Hl as [Hl | (c' & Hin & Hh & Hm)].
  - destruct (decide (chunk_hash c = h)) as [Heq | Hne].
    + rewrite Heq, lookup_insert_eq in Hl. injection Hl as Hl.
      right. exists c. split; [left | done].
    + rewrite lookup_insert_ne in Hl by done. by left.
  - right. exists c'. split; [by right | done].
Qed.

Lemma metadata_by_hash_lookup (cs : list Chunk.t) (h : string) (meta : ChunkMetadata.t) :
  ChunkedArticleMetadataOnly.metadata_by_hash cs !! h = Some meta →
  ∃ c, c ∈ cs ∧ chunk_hash c = h ∧ Chunk.metadata c = meta.
Proof.
  intros Hl. apply foldl_insert_lookup in Hl as [Hl | Hl]; [|done].
  by rewrite lookup_empty in Hl.
Qed.

Lemma metadata_by_hash_keyed (cs : list Chunk.t) :
  keyed_by_hash (ChunkedArticleMetadataOnly.metadata_by_hash cs).
Proof.
  intros k meta Hl. apply metadata_by_hash_lookup in Hl as (c & _ & Hh & Hm).
  by rewrite <- Hm, <- Hh.
Qed.

(** ** [calc_chunk_diff] *)

(** The diff always returns, and its three lists are filters. *)
Lemma calc_chunk_diff_run (ca : ChunkedArticle.t) (w : World) :
  ∃ w', calc_chunk_diff ca w =
    (Ok (match METADATA_COLLECTION w
                 !! ArticleMetadata.url (Article.metadata (ChunkedArticle.article ca)) with
         | None =>
             {| ChunkedArticleDiff.chunked_article := ca;
                ChunkedArticleDiff.new_chunks := ChunkedArticle.chunks ca;
                ChunkedArticleDiff.deleted_chunks := [];
                ChunkedArticleDiff.unchanged_chunks := [] |}
         | Some prev =>
             let snapshot := ChunkedArticleMetadataOnly.chunks_metadata prev in
             {| ChunkedArticleDiff.chunked_article := ca;
                ChunkedArticleDiff.new_chunks :=
                  filter (λ c, chunk_hash c ∉ dom snapshot) (ChunkedArticle.chunks ca);
                ChunkedArticleDiff.deleted_chunks :=
                  filter (λ meta, ChunkMetadata.hash meta ∉ hashes (ChunkedArticle.chunks ca))
                         (map_to_list snapshot).*2;
                ChunkedArticleDiff.unchanged_chunks :=
                  filter (λ c, chunk_hash c ∈ dom snapshot) (ChunkedArticle.chunks ca) |}
         end), w').
Proof.
  unfold calc_chunk_diff, METADATA_find_one, bind, submit, gets, modify. simpl.
  destruct (METADATA_COLLECTION w !! _) as [prev|]; simpl.
  - eexists. rewrite dom_metadata_by_hash. reflexivity.
  - eexists. reflexivity.
Qed.

(** C1. [calc_chunk_diff] always returns a diff of the article it was given,
    and the diff partitions by hash membership. When the store holds a
    previous snapshot: [new_chunks] are the current chunks, in order, whose
    hash is not a key of the snapshot; [unchanged_chunks] are the current
    chunks, in order, whose hash is a key of the snapshot; [deleted_chunks]
    are the entries of the snapshot whose hash is not the hash of a current
    chunk. When the store holds no snapshot: every current chunk is new, and
    nothing is deleted or unchanged. *)
Theorem calc_chunk_diff_partition (ca : ChunkedArticle.t) (w : World) :
  ∃ d w',
    calc_chunk_diff ca w = (Ok d, w') ∧
    ChunkedArticleDiff.chunked_article d = ca ∧
    match METADATA_COLLECTION w
            !! ArticleMetadata.url (Article.metadata (ChunkedArticle.article ca)) with
    | None =>
        ChunkedArticleDiff.new_chunks d = ChunkedArticle.chunks ca ∧
        ChunkedArticleDiff.deleted_chunks d = [] ∧
        ChunkedArticleDiff.unchanged_chunks d = []
    | Some prev =>
        let snapshot := ChunkedArticleMetadataOnly.chunks_metadata prev in
        ChunkedArticleDiff.new_chunks d =
          filter (λ c, snapshot !! chunk_hash c = None) (ChunkedArticle.chunks ca) ∧
        ChunkedArticleDiff.unchanged_chunks d =
          filter (λ c, is_Some (snapshot !! chunk_hash c)) (ChunkedArticle.chunks ca) ∧
        ChunkedArticleDiff.deleted_chunks d =
          filter (λ meta, ChunkMetadata.hash meta ∉ chunk_hash <$> ChunkedArticle.chunks ca)
                 (map_to_list snapshot).*2 ∧
        (∀ meta, meta ∈ ChunkedArticleDiff.deleted_chunks d ↔
                 (∃ k, snapshot !! k = Some meta) ∧
                 ChunkMetadata.hash meta ∉ chunk_hash <$> ChunkedArticle.chunks ca)
    end.
Proof.
  destruct (calc_chunk_diff_run ca w) as [w' Hrun].
  eexists _, w'. split; [exact Hrun|].
  destruct (METADATA_COLLECTION w !! _) as [prev|]; simpl; [|done].
  split; [done|].
  assert (Hdel : ∀ meta : ChunkMetadata.t,
             ChunkMetadata.hash meta ∉ hashes (ChunkedArticle.chunks ca) ↔
             ChunkMetadata.hash meta ∉ chunk_hash <$> ChunkedArticle.chunks ca).
  { intros meta. by rewrite elem_of_hashes. }
  split; [|split; [|split]].
  - apply list_filter_iff. intros c. by rewrite not_elem_of_dom.
  - apply list_filter_iff. intros c. by rewrite elem_of_dom.
  - apply list_filter_iff. exact Hdel.
  - intros meta. rewrite list_elem_of_filter, Hdel.
    split.
    + intros [Hnot Hin]. split; [|done].
      apply list_elem_of_fmap in Hin as ([k m] & -> & Hkm).
      exists k. by apply elem_of_map_to_list in Hkm.
    + intros [[k Hk] Hnot]. split; [done|].
      apply list_elem_of_fmap.
      exists (k, meta). split; [done|]. by apply elem_of_map_to_list.
Qed.

(** *** Counting the diff *)








(** ** Batches *)

Lemma batch_list_from_nil {A} (fuel n : nat) : batch_list_from fuel (@nil A) n = [].
Proof. by destruct fuel. Qed.

Lemma batch_list_from_cons {A} (fuel n : nat) (l : list A) :
  l ≠ [] →
  batch_list_from (S fuel) l n = take n l :: batch_list_from fuel (drop n l) n.
Proof. by destruct l. Qed.

(** With a positive batch size the length of the list is fuel enough: the
    batches put end to end are the list. *)
Lemma concat_batch_list_from {A} (fuel n : nat) (l : list A) :
  0 < n → length l ≤ fuel → concat (batch_list_from fuel l n) = l.
Proof.
  intros Hn. revert l. induction fuel as [|fuel IH]; intros l Hlen.
  - destruct l; [done | simpl in Hlen; lia].
  - destruct l as [|x l]; [done|].
    rewrite batch_list_from_cons by done. rewrite concat_cons, IH.
    + apply take_drop.
    + rewrite length_drop. simpl in *. lia.
Qed.



Lemma batch_list_single {A} (n : nat) (l : list A) :
  l ≠ [] → length l ≤ n → batch_list l n = [l].
Proof.
  intros Hne Hlen. unfold batch_list. destruct l as [|x l]; [done|].
  change (length (x :: l)) with (S (length l)).
  rewrite batch_list_from_cons by done.
  rewrite take_ge, drop_ge by done. by rewrite batch_list_from_nil.
Qed.

(** ** The insert loop *)

Lemma tolerated_filter (errs : list InsertError) :
  length errs = length (filter already_exists errs) ↔ Forall already_exists errs.
Proof.
  induction errs as [|e errs IH]; [by split|].
  rewrite filter_cons, Forall_cons.
  pose proof (length_filter already_exists errs).
  destruct (decide (already_exists e)); simpl; split.
  - intros Hl. split; [done|]. apply IH. lia.
  - intros [_ Hf]. f_equal. by apply IH.
  - lia.
  - tauto.
Qed.

Lemma filter_tolerated (errs : list InsertError) :
  Forall already_exists errs → filter already_exists errs = errs.
Proof.
  induction 1 as [|e errs He _ IH]; [done|].
  rewrite filter_cons. destruct (decide (already_exists e)); [|done].
  by rewrite IH.
Qed.

(** The logging loop over the documents of a batch. *)
Lemma log_not_inserted (docs : list EmbeddingDocument.t) (ids : list string) (w : World) :
  for_each docs (λ article_embedding,
    if decide (EmbeddingDocument._id article_embedding ∈ ids)
    then ret tt
    else existing_chunk_logger_warning (logged_doc article_embedding)) w
  = (Ok tt,
     set_existing_chunks_log
       (existing_chunks_log w
          ++ (logged_doc <$> filter (λ d, EmbeddingDocument._id d ∉ ids) docs)) w).
Proof.
  revert w. induction docs as [|d docs IH]; intros w.
  - simpl. unfold ret. rewrite app_nil_r. by destruct w.
  - simpl. unfold bind. rewrite filter_cons.
    destruct (decide (EmbeddingDocument._id d ∈ ids)) as [Hin | Hout].
    + unfold ret. rewrite IH.
      destruct (decide (EmbeddingDocument._id d ∉ ids)); [contradiction | done].
    + unfold existing_chunk_logger_warning, modify. rewrite IH.
      destruct (decide (EmbeddingDocument._id d ∉ ids)); [|contradiction].
      destruct w. unfold set_existing_chunks_log. simpl.
      by rewrite <- app_assoc.
Qed.

Section InsertLoop.
Context {C : Collaborators}.

(** One batch: the request, what the store made of it, the collisions
    counted and logged, and whether the loop goes on. *)
Lemma insert_batch_run (batch : list VectoredChunk.t) (w : World) :
  let docs := documents_of batch in
  let r := insert_many (EMBEDDING_COLLECTION w) docs in
  let collisions := filter already_exists (errors r.2) in
  ∃ w',
    insert_batch batch w
    = (if decide (tolerated r.2) then Ok tt else Raise (ValueError (errors r.2)), w') ∧
    EMBEDDING_COLLECTION w' = r.1 ∧
    requests w' = requests w ++ [insert_request batch] ∧
    METADATA_COLLECTION w' = METADATA_COLLECTION w ∧
    SUGGESTIONS_COLLECTION w' = SUGGESTIONS_COLLECTION w ∧
    RECENT_ARTICLES w' = RECENT_ARTICLES w ∧
    METRICS w' = match collisions with
                 | [] => METRICS w
                 | _ :: _ => <["chunk_collision" :=
                                 METRICS w !!! "chunk_collision" + length collisions]>
                               (METRICS w)
                 end ∧
    existing_chunks_log w'
    = existing_chunks_log w ++ match collisions with
                               | [] => []
                               | _ :: _ => not_inserted docs r.2
                               end.
Proof.
  intros docs r collisions.
  unfold insert_batch, EMBEDDING_insert_many, submit, modify.
  change (EmbeddingDocument.from_vectored_chunk <$> batch) with docs.
  unfold bind at 1 2. simpl. fold r. fold collisions.
  assert (Hdec : ∀ fin : World,
    (if decide (length (errors r.2) ≠ length collisions)
     then raise (ValueError (errors r.2)) else ret tt) fin
    = (if decide (tolerated r.2) then Ok tt else Raise (ValueError (errors r.2)), fin)).
  { intros fin. unfold tolerated.
    destruct (decide (length (errors r.2) ≠ length collisions)) as [Hne | Heq],
             (decide (Forall already_exists (errors r.2))) as [Hall | Hnall];
      try done.
    - exfalso. apply Hne. by apply tolerated_filter.
    - exfalso. apply dec_stable in Heq. by apply Hnall, tolerated_filter. }
  destruct collisions as [|e es] eqn:Hc.
  - unfold bind, ret at 1. rewrite Hdec. eexists. split; [reflexivity|].
    simpl. by rewrite app_nil_r.
  - unfold bind at 1. unfold bind at 1. unfold METRICS_update_database, modify.
    rewrite log_not_inserted, Hdec. eexists. split; [reflexivity|]. simpl.
    done.
Qed.

Lemma for_each_app {A} (l1 l2 : list A) (body : A → M unit) (w : World) :
  for_each (l1 ++ l2) body w
  = match for_each l1 body w with
    | (Ok _, w1) => for_each l2 body w1
    | (Raise e, w1) => (Raise e, w1)
    end.
Proof.
  revert w. induction l1 as [|x l1 IH]; intros w; [done|].
  simpl. unfold bind. destruct (body x w) as [[[]|e] w1]; [apply IH | done].
Qed.

(** The loop over batches the store tolerates runs to its end. *)
Lemma insert_loop_tolerated (batches : list (list VectoredChunk.t)) (w : World) :
  let run := bulk_inserts (EMBEDDING_COLLECTION w) (documents_of <$> batches) in
  Forall tolerated run.1 →
  ∃ w',
    for_each batches insert_batch w = (Ok tt, w') ∧
    EMBEDDING_COLLECTION w' = run.2 ∧
    requests w' = requests w ++ (insert_request <$> batches) ∧
    METADATA_COLLECTION w' = METADATA_COLLECTION w ∧
    SUGGESTIONS_COLLECTION w' = SUGGESTIONS_COLLECTION w ∧
    RECENT_ARTICLES w' = RECENT_ARTICLES w ∧
    METRICS w' !!! "chunk_collision"
    = METRICS w !!! "chunk_collision" + sum_list ((λ r, length (errors r)) <$> run.1) ∧
    (∀ k, k ≠ "chunk_collision" → METRICS w' !! k = METRICS w !! k) ∧
    existing_chunks_log w'
    = existing_chunks_log w
        ++ concat (zip_with collision_records (documents_of <$> batches) run.1).
Proof.
  revert w. induction batches as [|b bs IH]; intros w; simpl.
  - intros _. exists w. rewrite !app_nil_r. repeat split; try done.
  - intros Hall. apply Forall_cons in Hall as [Hb Hbs].
    destruct (insert_batch_run b w)
      as (w1 & Hrun & Hemb & Hreq & Hmeta & Hsug & Hrec & Hmet & Hlog).
    rewrite decide_True in Hrun by done.
    rewrite filter_tolerated in Hmet, Hlog by done.
    rewrite <- Hemb in Hbs.
    destruct (IH w1 Hbs)
      as (w' & Hrun' & Hemb' & Hreq' & Hmeta' & Hsug' & Hrec' & Hcol' & Hoth' & Hlog').
    exists w'. unfold bind. rewrite Hrun. rewrite <- Hemb.
    split; [done|]. split; [done|].
    split; [by rewrite Hreq', Hreq, <- app_assoc|].
    split; [congruence|]. split; [congruence|]. split; [congruence|].
    split; [|split].
    + rewrite Hcol', Hmet.
      destruct (errors (insert_many (EMBEDDING_COLLECTION w) (documents_of b)).2);
        [reflexivity|].
      rewrite lookup_total_insert_eq. symmetry. apply Nat.add_assoc.
    + intros k Hk. rewrite Hoth', Hmet by done.
      destruct (errors (insert_many (EMBEDDING_COLLECTION w) (documents_of b)).2);
        [done|].
      by rewrite lookup_insert_ne.
    + rewrite Hlog', Hlog, <- app_assoc. f_equal.
Qed.

(** The loop stops at the first batch the store answers with another
    error: the error list of that batch is raised, and what the store made
    of the batches so far, this one included, stays. *)
Lemma insert_loop_abort (pre post : list (list VectoredChunk.t))
    (bad : list VectoredChunk.t) (w : World) :
  let run := bulk_inserts (EMBEDDING_COLLECTION w) (documents_of <$> pre) in
  let r := insert_many run.2 (documents_of bad) in
  Forall tolerated run.1 →
  ¬ tolerated r.2 →
  ∃ w',
    for_each (pre ++ bad :: post) insert_batch w = (Raise (ValueError (errors r.2)), w') ∧
    EMBEDDING_COLLECTION w' = r.1 ∧
    requests w' = requests w ++ (insert_request <$> pre ++ [bad]) ∧
    METADATA_COLLECTION w' = METADATA_COLLECTION w ∧
    SUGGESTIONS_COLLECTION w' = SUGGESTIONS_COLLECTION w ∧
    RECENT_ARTICLES w' = RECENT_ARTICLES w ∧
    (∀ k, k ≠ "chunk_collision" → METRICS w' !! k = METRICS w !! k).
Proof.
  intros run r Hpre Hbad.
  destruct (insert_loop_tolerated pre w Hpre)
    as (w1 & Hrun1 & Hemb1 & Hreq1 & Hmeta1 & Hsug1 & Hrec1 & _ & Hoth1 & _).
  destruct (insert_batch_run bad w1)
    as (w2 & Hrun2 & Hemb2 & Hreq2 & Hmeta2 & Hsug2 & Hrec2 & Hmet2 & _).
  fold run in Hemb1. rewrite Hemb1 in *. fold r in Hrun2, Hemb2.
  rewrite decide_False in Hrun2 by done.
  exists w2. rewrite for_each_app, Hrun1. simpl. unfold bind. rewrite Hrun2.
  split; [done|]. split; [done|].
  split; [by rewrite Hreq2, Hreq1, fmap_app, <- app_assoc|].
  split; [congruence|]. split; [congruence|]. split; [congruence|].
  intros k Hk. rewrite Hmet2, <- Hoth1 by done.
  destruct (filter _ _); [done|]. by rewrite lookup_insert_ne.
Qed.


End InsertLoop.

(** ** The in-memory store *)

Lemma mem_insert_many_tolerated (coll : gmap string EmbeddingDocument.t)
    (docs : list EmbeddingDocument.t) :
  tolerated (mem_insert_many coll docs).2.
Proof.
  unfold tolerated. revert coll. induction docs as [|d docs IH]; intros coll; simpl.
  - constructor.
  - destruct (coll !! EmbeddingDocument._id d); simpl; [|apply IH].
    constructor; [done | apply IH].
Qed.

(** A stored document is never overwritten by a bulk insert. *)
Lemma mem_insert_many_keeps (coll : gmap string EmbeddingDocument.t)
    (docs : list EmbeddingDocument.t) (k : string) (d : EmbeddingDocument.t) :
  coll !! k = Some d → (mem_insert_many coll docs).1 !! k = Some d.
Proof.
  revert coll. induction docs as [|d' docs IH]; intros coll Hk; simpl; [done|].
  destruct (coll !! EmbeddingDocument._id d') eqn:Hd'; simpl; [by apply IH|].
  apply IH. rewrite lookup_insert_ne; [done|]. congruence.
Qed.

(** A document whose key is free is stored. *)
Lemma mem_insert_many_stores (coll : gmap string EmbeddingDocument.t)
    (docs : list EmbeddingDocument.t) (d : EmbeddingDocument.t) :
  NoDup (EmbeddingDocument._id <$> docs) → d ∈ docs →
  coll !! EmbeddingDocument._id d = None →
  (mem_insert_many coll docs).1 !! EmbeddingDocument._id d = Some d.
Proof.
  revert coll. induction docs as [|d' docs IH]; intros coll Hnd Hin Hfree.
  - by apply elem_of_nil in Hin.
  - rewrite fmap_cons in Hnd. apply NoDup_cons in Hnd as [Hd' Hnd].
    apply elem_of_cons in Hin as [-> | Hin]; simpl.
    + rewrite Hfree. simpl. apply mem_insert_many_keeps, lookup_insert_eq.
    + assert (Hne : EmbeddingDocument._id d' ≠ EmbeddingDocument._id d).
      { intros Heq. apply Hd'. rewrite Heq. by apply list_elem_of_fmap_2. }
      destruct (coll !! EmbeddingDocument._id d'); simpl; apply IH; try done.
      by rewrite lookup_insert_ne.
Qed.

Lemma filter_ext_in {A} (P1 P2 : A → Prop)
    `{∀ x, Decision (P1 x)} `{∀ x, Decision (P2 x)} (l : list A) :
  (∀ x, x ∈ l → (P1 x ↔ P2 x)) → filter P1 l = filter P2 l.
Proof.
  induction l as [|a l IH]; intros Hl; [done|].
  rewrite !filter_cons.
  assert (Ha : P1 a ↔ P2 a) by (apply Hl; left).
  rewrite IH by (intros x Hx; apply Hl; by right).
  destruct (decide (P1 a)), (decide (P2 a)); tauto.
Qed.

(** With pairwise distinct keys, the inserted ids are those of the
    documents whose key was free, and each other document is reported as
    already existing. *)
Lemma mem_insert_many_response (coll : gmap string EmbeddingDocument.t)
    (docs : list EmbeddingDocument.t) :
  NoDup (EmbeddingDocument._id <$> docs) →
  insertedIds (mem_insert_many coll docs).2
  = EmbeddingDocument._id <$> filter (λ d, coll !! EmbeddingDocument._id d = None) docs ∧
  errors (mem_insert_many coll docs).2
  = (λ d, exists_error (EmbeddingDocument._id d))
      <$> filter (λ d, coll !! EmbeddingDocument._id d ≠ None) docs.
Proof.
  revert coll. induction docs as [|d docs IH]; intros coll Hnd; [done|].
  rewrite fmap_cons in Hnd. apply NoDup_cons in Hnd as [Hd Hnd].
  simpl. rewrite !filter_cons.
  destruct (coll !! EmbeddingDocument._id d) eqn:Hl; simpl.
  - by destruct (IH coll Hnd) as [-> ->].
  - destruct (IH (<[EmbeddingDocument._id d := d]> coll) Hnd) as [-> ->].
    assert (Hother : ∀ d', d' ∈ docs →
              <[EmbeddingDocument._id d := d]> coll !! EmbeddingDocument._id d'
              = coll !! EmbeddingDocument._id d').
    { intros d' Hd'. apply lookup_insert_ne. intros Heq. apply Hd.
      rewrite Heq. by apply list_elem_of_fmap_2. }
    split; [f_equal|]; apply (f_equal (fmap _)); apply filter_ext_in;
      intros d' Hd'; by rewrite Hother.
Qed.

Lemma filter_none {A} (P : A → Prop) `{∀ x, Decision (P x)} (l : list A) :
  (∀ y, y ∈ l → ¬ P y) → filter P l = [].
Proof.
  induction l as [|a l IH]; intros Hl; [done|].
  rewrite filter_cons, decide_False by (apply Hl; left).
  apply IH. intros y Hy. apply Hl. by right.
Qed.

Lemma filter_unique {A} (P : A → Prop) `{∀ x, Decision (P x)} (l : list A) (x : A) :
  NoDup l → x ∈ l → (∀ y, y ∈ l → (P y ↔ y = x)) → filter P l = [x].
Proof.
  induction l as [|a l IH]; intros Hnd Hin Hp.
  - by apply elem_of_nil in Hin.
  - apply NoDup_cons in Hnd as [Ha Hnd]. rewrite filter_cons.
    destruct (decide (P a)) as [Hpa | Hnpa].
    + apply Hp in Hpa as ->; [|left].
      f_equal. apply filter_none. intros y Hy Hpy.
      apply Hp in Hpy; [|by right]. congruence.
    + assert (Hne : a ≠ x) by (intros ->; apply Hnpa, Hp; [left | done]).
      apply IH; [done | | ].
      * apply elem_of_cons in Hin as [Heq | Hin]; [congruence | done].
      * intros y Hy. apply Hp. by right.
Qed.

Lemma logged_doc_no_vector (d : EmbeddingDocument.t) : logged_doc d !! "$vector" = None.
Proof. unfold logged_doc. apply lookup_delete_eq. Qed.

(** ** [insert_vectored_chunks] *)

(** The whole operation over batches the store tolerates. *)
Lemma insert_vectored_chunks_tolerated {C : Collaborators}
    (vectored_chunks : list VectoredChunk.t) (w : World) :
  let run := bulk_inserts (EMBEDDING_COLLECTION w)
               (documents_of <$> batch_list vectored_chunks batch_size) in
  Forall tolerated run.1 →
  ∃ w',
    insert_vectored_chunks vectored_chunks w = (Ok tt, w') ∧
    EMBEDDING_COLLECTION w' = run.2 ∧
    requests w' = requests w ++ (insert_request <$> batch_list vectored_chunks batch_size) ∧
    METADATA_COLLECTION w' = METADATA_COLLECTION w ∧
    SUGGESTIONS_COLLECTION w' = SUGGESTIONS_COLLECTION w ∧
    RECENT_ARTICLES w' = RECENT_ARTICLES w ∧
    METRICS w' !!! "chunk_collision"
    = METRICS w !!! "chunk_collision" + sum_list ((λ r, length (errors r)) <$> run.1) ∧
    existing_chunks_log w'
    = existing_chunks_log w
        ++ concat (zip_with collision_records
                     (documents_of <$> batch_list vectored_chunks batch_size) run.1).
Proof.
  intros run Hall.
  destruct (insert_loop_tolerated _ w Hall)
    as (w1 & Hrun & Hemb & Hreq & Hmeta & Hsug & Hrec & Hcol & _ & Hlog).
  unfold insert_vectored_chunks, bind. rewrite Hrun.
  unfold METRICS_update_database, modify. eexists. split; [reflexivity|]. simpl.
  fold run in Hemb, Hcol, Hlog.
  repeat split; try done.
  rewrite <- Hcol. unfold add_counters. simpl.
  by rewrite lookup_total_insert_ne.
Qed.

(** C3. A batch whose response holds only [DOCUMENT_ALREADY_EXISTS] errors
    does not abort [insert_vectored_chunks].
    - For one batch and whatever the store answers: the loop goes on with
      the remaining batches from the world the batch leaves; the collision
      counter grows by the number of these errors; when there is such an
      error, the [existing_chunks] logger receives, in order, each document
      of the batch whose [_id] is not among the response's [insertedIds],
      and none of these records has a ["$vector"] field (when there is no
      error nothing is logged).
    - For a whole operation whose responses are all of this kind: it
      returns, every batch was submitted, and the collisions of all batches
      are counted and logged.
    - On the in-memory store: a batch of 20 units with distinct hashes, one
      of which is already stored, returns; the 19 others are stored; the
      stored one is untouched; one collision is counted; the one record
      logged is the duplicate without its vector. *)
Theorem insert_tolerates_already_exists :
  (∀ (C : Collaborators) (batch : list VectoredChunk.t)
     (rest : list (list VectoredChunk.t)) (w : World),
     let r := insert_many (EMBEDDING_COLLECTION w) (documents_of batch) in
     tolerated r.2 →
     ∃ w',
       insert_batch batch w = (Ok tt, w') ∧
       for_each (batch :: rest) insert_batch w = for_each rest insert_batch w' ∧
       EMBEDDING_COLLECTION w' = r.1 ∧
       METRICS w' !!! "chunk_collision"
       = METRICS w !!! "chunk_collision" + length (errors r.2) ∧
       (errors r.2 ≠ [] →
        existing_chunks_log w'
        = existing_chunks_log w ++ not_inserted (documents_of batch) r.2) ∧
       (errors r.2 = [] → existing_chunks_log w' = existing_chunks_log w) ∧
       (∀ d, d ∈ documents_of batch → EmbeddingDocument._id d ∉ insertedIds r.2 →
             delete "$vector" (EmbeddingDocument.to_dict d)
               ∈ not_inserted (documents_of batch) r.2) ∧
       (∀ doc, doc ∈ not_inserted (documents_of batch) r.2 → doc !! "$vector" = None))
  ∧
  (∀ (C : Collaborators) (vectored_chunks : list VectoredChunk.t) (w : World),
     let run := bulk_inserts (EMBEDDING_COLLECTION w)
                  (documents_of <$> batch_list vectored_chunks batch_size) in
     Forall tolerated run.1 →
     ∃ w',
       insert_vectored_chunks vectored_chunks w = (Ok tt, w') ∧
       requests w'
       = requests w ++ (insert_request <$> batch_list vectored_chunks batch_size) ∧
       EMBEDDING_COLLECTION w' = run.2 ∧
       METRICS w' !!! "chunk_collision"
       = METRICS w !!! "chunk_collision" + sum_list ((λ r, length (errors r)) <$> run.1) ∧
       existing_chunks_log w'
       = existing_chunks_log w
           ++ concat (zip_with collision_records
                        (documents_of <$> batch_list vectored_chunks batch_size) run.1))
  ∧
  (∀ (batch : list VectoredChunk.t) (dup : VectoredChunk.t) (w : World),
     length batch = 20 →
     NoDup ((λ vc, chunk_hash (VectoredChunk.chunk vc)) <$> batch) →
     dup ∈ batch →
     (∀ vc, vc ∈ batch →
        (EMBEDDING_COLLECTION w !! chunk_hash (VectoredChunk.chunk vc) ≠ None
         ↔ chunk_hash (VectoredChunk.chunk vc) = chunk_hash (VectoredChunk.chunk dup))) →
     ∃ w',
       insert_vectored_chunks (C:=mem_collaborators) batch w = (Ok tt, w') ∧
       (∀ vc, vc ∈ batch →
          chunk_hash (VectoredChunk.chunk vc) ≠ chunk_hash (VectoredChunk.chunk dup) →
          EMBEDDING_COLLECTION w' !! chunk_hash (VectoredChunk.chunk vc)
          = Some (EmbeddingDocument.from_vectored_chunk vc)) ∧
       EMBEDDING_COLLECTION w' !! chunk_hash (VectoredChunk.chunk dup)
       = EMBEDDING_COLLECTION w !! chunk_hash (VectoredChunk.chunk dup) ∧
       METRICS w' !!! "chunk_collision" = METRICS w !!! "chunk_collision" + 1 ∧
       existing_chunks_log w'
       = existing_chunks_log w
           ++ [delete "$vector"
                 (EmbeddingDocument.to_dict (EmbeddingDocument.from_vectored_chunk dup))]).
Proof.
  split; [|split].
  - intros C batch rest w r Htol.
    destruct (insert_batch_run batch w)
      as (w1 & Hrun & Hemb & _ & _ & _ & _ & Hmet & Hlog).
    fold r in Hrun, Hemb, Hmet, Hlog.
    rewrite decide_True in Hrun by done.
    rewrite filter_tolerated in Hmet, Hlog by done.
    exists w1. split; [done|]. split.
    { simpl. unfold bind. by rewrite Hrun. }
    split; [done|]. split; [|split; [|split; [|split]]].
    + rewrite Hmet. destruct (errors r.2); [simpl; lia|].
      by rewrite lookup_total_insert_eq.
    + intros Hne. rewrite Hlog. by destruct (errors r.2).
    + intros Heq. rewrite Hlog, Heq. by rewrite app_nil_r.
    + intros d Hd Hout. unfold not_inserted. apply list_elem_of_fmap.
      exists d. split; [done|]. by apply list_elem_of_filter.
    + intros doc Hdoc. unfold not_inserted in Hdoc.
      apply list_elem_of_fmap in Hdoc as (d & -> & _). apply logged_doc_no_vector.
  - intros C vcs w run Hall.
    destruct (insert_vectored_chunks_tolerated vcs w Hall)
      as (w' & Hrun & Hemb & Hreq & _ & _ & _ & Hcol & Hlog).
    by exists w'.
  - intros batch dup w Hlen Hnd Hdup Hstored.
    assert (Hbatches : batch_list batch batch_size = [batch]).
    { apply batch_list_single; [|unfold batch_size; lia].
      intros ->. by apply elem_of_nil in Hdup. }
    assert (Hids : EmbeddingDocument._id <$> documents_of batch
                   = (λ vc, chunk_hash (VectoredChunk.chunk vc)) <$> batch).
    { unfold documents_of. by rewrite <- list_fmap_compose. }
    assert (Hnd_ids : NoDup (EmbeddingDocument._id <$> documents_of batch))
      by (by rewrite Hids).
    assert (Hnd_docs : NoDup (documents_of batch))
      by (by apply NoDup_fmap_1 in Hnd_ids).
    set (coll := EMBEDDING_COLLECTION w) in *.
    destruct (mem_insert_many_response coll (documents_of batch) Hnd_ids)
      as [Hinserted Herrors].
    assert (Hdup_doc : EmbeddingDocument.from_vectored_chunk dup ∈ documents_of batch)
      by (by apply list_elem_of_fmap_2).
    assert (Hcollide :
      filter (λ d, coll !! EmbeddingDocument._id d ≠ None) (documents_of batch)
      = [EmbeddingDocument.from_vectored_chunk dup]).
    { apply filter_unique; [done | done |].
      intros d Hd. apply list_elem_of_fmap in Hd as (vc & -> & Hvc).
      simpl. rewrite (Hstored vc Hvc). split.
      - intros Heq.
        apply list_elem_of_lookup in Hvc as [i Hi].
        apply list_elem_of_lookup in Hdup as [j Hj].
        assert (i = j); [|congruence].
        eapply NoDup_lookup; [exact Hnd | |];
          rewrite list_lookup_fmap; [by rewrite Hi | by rewrite Hj, Heq].
      - intros Heq. by apply (f_equal EmbeddingDocument._id) in Heq. }
    assert (Hlogged :
      not_inserted (documents_of batch) (mem_insert_many coll (documents_of batch)).2
      = [logged_doc (EmbeddingDocument.from_vectored_chunk dup)]).
    { unfold not_inserted. rewrite Hinserted.
      rewrite (filter_ext_in _ (λ d, coll !! EmbeddingDocument._id d ≠ None)).
      - by rewrite Hcollide.
      - intros d Hd. rewrite list_elem_of_fmap. split.
        + intros Hout Hfree. apply Hout. exists d. split; [done|].
          by apply list_elem_of_filter.
        + intros Hstd (d' & Hid & Hd'). apply list_elem_of_filter in Hd' as [Hfree _].
          apply Hstd. by rewrite Hid. }
    destruct (insert_vectored_chunks_tolerated (C:=mem_collaborators) batch w)
      as (w' & Hrun & Hemb & _ & _ & _ & _ & Hcol & Hlog).
    { rewrite Hbatches. simpl. constructor; [|constructor].
      apply mem_insert_many_tolerated. }
    rewrite Hbatches in Hemb, Hcol, Hlog. simpl in Hemb, Hcol, Hlog.
    fold coll in Hemb, Hcol, Hlog.
    exists w'. split; [done|]. split; [|split; [|split]].
    + intros vc Hvc Hne. rewrite Hemb.
      apply (mem_insert_many_stores coll (documents_of batch)
               (EmbeddingDocument.from_vectored_chunk vc)); [done | |].
      * by apply list_elem_of_fmap_2.
      * simpl. destruct (coll !! chunk_hash (VectoredChunk.chunk vc)) eqn:Hl; [|done].
        exfalso. apply Hne, (Hstored vc Hvc). by rewrite Hl.
    + rewrite Hemb.
      destruct (coll !! chunk_hash (VectoredChunk.chunk dup)) as [d|] eqn:Hl.
      * by apply mem_insert_many_keeps.
      * exfalso. by apply (Hstored dup Hdup).
    + rewrite Hcol, Herrors, Hcollide. simpl. lia.
    + rewrite Hlog. unfold collision_records.
      rewrite Herrors, Hcollide. simpl. by rewrite Hlogged, app_nil_r.
Qed.

(** C4. A batch whose response holds an error other than
    [DOCUMENT_ALREADY_EXISTS] aborts the operation at once.
    - For one batch and whatever the store answers: the batch raises
      [ValueError] with the complete list of errors of the response, and the
      collection stays as the store left it.
    - For a whole operation whose first such batch is [bad]:
      [insert_vectored_chunks] raises the errors of [bad]; the batches up to
      [bad] are the only requests submitted; the collection is what the store
      made of them, nothing is taken back; the counter [chunks_inserted] is
      not touched.
    - [store_article_diff] raises the same error: nothing is deleted, and
      neither the article's snapshot nor the registry is written. *)
Theorem insert_aborts_on_other_error :
  (∀ (C : Collaborators) (batch : list VectoredChunk.t) (w : World),
     let r := insert_many (EMBEDDING_COLLECTION w) (documents_of batch) in
     Exists (λ e, ¬ already_exists e) (errors r.2) →
     ∃ w',
       insert_batch batch w = (Raise (ValueError (errors r.2)), w') ∧
       EMBEDDING_COLLECTION w' = r.1)
  ∧
  (∀ (C : Collaborators) (vectored_chunks : list VectoredChunk.t)
     (pre post : list (list VectoredChunk.t)) (bad : list VectoredChunk.t) (w : World),
     batch_list vectored_chunks batch_size = pre ++ bad :: post →
     let run := bulk_inserts (EMBEDDING_COLLECTION w) (documents_of <$> pre) in
     let r := insert_many run.2 (documents_of bad) in
     Forall tolerated run.1 →
     Exists (λ e, ¬ already_exists e) (errors r.2) →
     ∃ w',
       insert_vectored_chunks vectored_chunks w = (Raise (ValueError (errors r.2)), w') ∧
       requests w' = requests w ++ (insert_request <$> pre ++ [bad]) ∧
       EMBEDDING_COLLECTION w' = r.1 ∧
       METRICS w' !! "chunks_inserted" = METRICS w !! "chunks_inserted")
  ∧
  (∀ (C : Collaborators) (article_diff : VectoredChunkedArticleDiff.t)
     (pre post : list (list VectoredChunk.t)) (bad : list VectoredChunk.t) (w : World),
     batch_list (VectoredChunkedArticleDiff.new_chunks article_diff) batch_size
     = pre ++ bad :: post →
     let run := bulk_inserts (EMBEDDING_COLLECTION w) (documents_of <$> pre) in
     let r := insert_many run.2 (documents_of bad) in
     Forall tolerated run.1 →
     Exists (λ e, ¬ already_exists e) (errors r.2) →
     ∃ w',
       store_article_diff article_diff w = (Raise (ValueError (errors r.2)), w') ∧
       requests w' = requests w ++ (insert_request <$> pre ++ [bad]) ∧
       EMBEDDING_COLLECTION w' = r.1 ∧
       METADATA_COLLECTION w' = METADATA_COLLECTION w ∧
       SUGGESTIONS_COLLECTION w' = SUGGESTIONS_COLLECTION w ∧
       RECENT_ARTICLES w' = RECENT_ARTICLES w ∧
       (∀ k, k ≠ "chunk_collision" → METRICS w' !! k = METRICS w !! k)).
Proof.
  assert (Hloop : ∀ (C : Collaborators) (vcs : list VectoredChunk.t)
            (pre post : list (list VectoredChunk.t)) (bad : list VectoredChunk.t) (w : World),
            batch_list vcs batch_size = pre ++ bad :: post →
            let run := bulk_inserts (EMBEDDING_COLLECTION w) (documents_of <$> pre) in
            let r := insert_many run.2 (documents_of bad) in
            Forall tolerated run.1 →
            Exists (λ e, ¬ already_exists e) (errors r.2) →
            ∃ w',
              insert_vectored_chunks vcs w = (Raise (ValueError (errors r.2)), w') ∧
              requests w' = requests w ++ (insert_request <$> pre ++ [bad]) ∧
              EMBEDDING_COLLECTION w' = r.1 ∧
              METADATA_COLLECTION w' = METADATA_COLLECTION w ∧
              SUGGESTIONS_COLLECTION w' = SUGGESTIONS_COLLECTION w ∧
              RECENT_ARTICLES w' = RECENT_ARTICLES w ∧
              (∀ k, k ≠ "chunk_collision" → METRICS w' !! k = METRICS w !! k)).
  { intros C vcs pre post bad w Hbatches run r Hpre Hbad.
    destruct (insert_loop_abort pre post bad w Hpre)
      as (w' & Hrun & Hemb & Hreq & Hmeta & Hsug & Hrec & Hmet).
    { by apply Exists_not_Forall. }
    exists w'. unfold insert_vectored_chunks, bind. rewrite Hbatches, Hrun.
    by repeat split. }
  split; [|split].
  - intros C batch w r Hbad.
    destruct (insert_batch_run batch w) as (w' & Hrun & Hemb & _).
    fold r in Hrun, Hemb. exists w'.
    rewrite decide_False in Hrun by (by apply Exists_not_Forall). done.
  - intros C vcs pre post bad w Hbatches run r Hpre Hbad.
    destruct (Hloop C vcs pre post bad w Hbatches Hpre Hbad)
      as (w' & Hrun & Hreq & Hemb & _ & _ & _ & Hmet).
    exists w'. repeat split; try done. by apply Hmet.
  - intros C vd pre post bad w Hbatches run r Hpre Hbad.
    destruct (Hloop C _ pre post bad w Hbatches Hpre Hbad)
      as (w' & Hrun & Hreq & Hemb & Hmeta & Hsug & Hrec & Hmet).
    exists w'. unfold store_article_diff, bind. rewrite Hrun. done.
Qed.


(** ** [vectorize_diff] *)

(** C6. When the embedding service answers one vector per text,
    [vectorize_diff] returns a vectored diff of the same article whose new
    chunks are the new chunks of the input diff, as many and in the same
    order, the i-th one carrying the i-th vector, and whose deleted chunks
    are those of the input diff. If moreover the vectors are those of the
    texts in order, each vectored chunk carries the vector of its own
    text. *)
Theorem vectorize_diff_pairs (C : Collaborators) (article_diff : ChunkedArticleDiff.t)
    (vectors : list Vector) (w : World) :
  get_embeddings (Chunk.content <$> ChunkedArticleDiff.new_chunks article_diff) = Ok vectors →
  length vectors = length (ChunkedArticleDiff.new_chunks article_diff) →
  ∃ vd w',
    vectorize_diff article_diff w = (Ok vd, w') ∧
    length (VectoredChunkedArticleDiff.new_chunks vd)
    = length (ChunkedArticleDiff.new_chunks article_diff) ∧
    VectoredChunk.chunk <$> VectoredChunkedArticleDiff.new_chunks vd
    = ChunkedArticleDiff.new_chunks article_diff ∧
    VectoredChunk.vector <$> VectoredChunkedArticleDiff.new_chunks vd = vectors ∧
    (∀ i vc, VectoredChunkedArticleDiff.new_chunks vd !! i = Some vc →
       vectors !! i = Some (VectoredChunk.vector vc) ∧
       ChunkedArticleDiff.new_chunks article_diff !! i = Some (VectoredChunk.chunk vc) ∧
       VectoredChunk.chunked_article vc = ChunkedArticleDiff.chunked_article article_diff) ∧
    (∀ embed : string → Vector,
       vectors = embed <$> (Chunk.content <$> ChunkedArticleDiff.new_chunks article_diff) →
       ∀ vc, vc ∈ VectoredChunkedArticleDiff.new_chunks vd →
             VectoredChunk.vector vc = embed (Chunk.content (VectoredChunk.chunk vc))) ∧
    VectoredChunkedArticleDiff.deleted_chunks vd
    = ChunkedArticleDiff.deleted_chunks article_diff ∧
    VectoredChunkedArticleDiff.chunked_article vd
    = ChunkedArticleDiff.chunked_article article_diff.
Proof.
  intros Hemb Hlen.
  unfold vectorize_diff, embeddings_get_embeddings, bind. rewrite Hemb.
  unfold METRICS_update_chunks, modify, ret. eexists _, _. split; [reflexivity|].
  simpl.
  set (pair := λ (vector : Vector) (chunk : Chunk.t),
         {| VectoredChunk.vector := vector;
            VectoredChunk.chunked_article := ChunkedArticleDiff.chunked_article article_diff;
            VectoredChunk.chunk := chunk |}).
  assert (Hlookup : ∀ i vc,
            zip_with pair vectors (ChunkedArticleDiff.new_chunks article_diff) !! i = Some vc →
            vectors !! i = Some (VectoredChunk.vector vc) ∧
            ChunkedArticleDiff.new_chunks article_diff !! i = Some (VectoredChunk.chunk vc) ∧
            VectoredChunk.chunked_article vc = ChunkedArticleDiff.chunked_article article_diff).
  { intros i vc Hi. apply lookup_zip_with_Some in Hi as (v & c & -> & Hv & Hc). done. }
  split; [|split; [|split; [|split; [|split]]]].
  - rewrite length_zip_with. lia.
  - apply fmap_zip_with_r; [done | lia].
  - apply fmap_zip_with_l; [done | lia].
  - exact Hlookup.
  - intros embed Hvec vc Hvc.
    apply list_elem_of_lookup in Hvc as [i Hi].
    destruct (Hlookup i vc Hi) as (Hv & Hc & _).
    rewrite Hvec, !list_lookup_fmap, Hc in Hv. simpl in Hv. congruence.
  - done.
Qed.

(** The reference embedding service on the diff of a new article. *)
Lemma vectorize_diff_pairs_new_article :
  ∃ vd w',
    vectorize_diff (C:=mem_collaborators)
      {| ChunkedArticleDiff.chunked_article := article_v1;
         ChunkedArticleDiff.new_chunks := ChunkedArticle.chunks article_v1;
         ChunkedArticleDiff.deleted_chunks := [];
         ChunkedArticleDiff.unchanged_chunks := [] |} empty_world = (Ok vd, w') ∧
    VectoredChunk.chunk <$> VectoredChunkedArticleDiff.new_chunks vd
    = ChunkedArticle.chunks article_v1 ∧
    length (VectoredChunkedArticleDiff.new_chunks vd) = 3.
Proof.
  destruct (vectorize_diff_pairs mem_collaborators
              {| ChunkedArticleDiff.chunked_article := article_v1;
                 ChunkedArticleDiff.new_chunks := ChunkedArticle.chunks article_v1;
                 ChunkedArticleDiff.deleted_chunks := [];
                 ChunkedArticleDiff.unchanged_chunks := [] |}
              [[1%float]; [1%float]; [1%float]] empty_world)
    as (vd & w' & Hrun & Hlen & Hchunks & _); [reflexivity | reflexivity |].
  exists vd, w'. split; [exact Hrun|]. split; [exact Hchunks | exact Hlen].
Defined.

(** ** [update_article_metadata] and [store_article_diff] *)

Lemma hashes_filter_split (P : Chunk.t → Prop) `{∀ c, Decision (P c)} (cs : list Chunk.t) :
  hashes (filter (λ c, ¬ P c) cs) ∪ hashes (filter P cs) = hashes cs.
Proof.
  apply set_eq. intros h.
  rewrite elem_of_union, !elem_of_hashes, !list_elem_of_fmap. split.
  - intros [(c & -> & Hc) | (c & -> & Hc)];
      apply list_elem_of_filter in Hc as [_ Hc]; by exists c.
  - intros (c & -> & Hc). destruct (decide (P c)).
    + right. exists c. split; [done|]. by apply list_elem_of_filter.
    + left. exists c. split; [done|]. by apply list_elem_of_filter.
Qed.

Lemma update_article_metadata_run {C : Collaborators}
    (vectored_diff : VectoredChunkedArticleDiff.t) (w : World) :
  let new_metadata := ChunkedArticleMetadataOnly.from_vectored_diff vectored_diff in
  ∃ w',
    update_article_metadata vectored_diff w = (Ok tt, w') ∧
    METADATA_COLLECTION w'
    = <[ChunkedArticleMetadataOnly._id new_metadata := new_metadata]> (METADATA_COLLECTION w) ∧
    EMBEDDING_COLLECTION w' = EMBEDDING_COLLECTION w ∧
    requests w'
    = requests w
        ++ [(Metadata, FindOneAndReplace (ChunkedArticleMetadataOnly._id new_metadata) true);
            (Suggestions,
             FindOneAndReplace
               (RecentArticles._id (update_and_clone (RECENT_ARTICLES w) new_metadata)) true)].
Proof.
  intros new_metadata.
  unfold update_article_metadata, METADATA_find_one_and_replace,
    RECENT_ARTICLES_update_and_clone, SUGGESTIONS_find_one_and_replace,
    METRICS_update_database, submit, modify, bind.
  eexists. split; [reflexivity|]. simpl. by rewrite <- app_assoc.
Qed.

(** C7. [update_article_metadata] always returns, and stores the snapshot
    of the article under the article's identity (its url) with one
    [find_one_and_replace] request whose [upsert] option is set: whether or
    not a snapshot was stored, the collection afterwards holds the new
    snapshot under this key and is unchanged at every other key. The
    snapshot is the full current set of units: its keys are the hashes of
    the current chunks, each entry is the metadata of a current chunk with
    that hash, and a hash that only the previous snapshot had is gone. For
    the diff [calc_chunk_diff] computes of the same article, the keys are
    the hashes of the new chunks together with those of the unchanged
    chunks. *)
Theorem update_article_metadata_replaces (C : Collaborators)
    (vectored_diff : VectoredChunkedArticleDiff.t) (w : World) :
  let chunked_article := VectoredChunkedArticleDiff.chunked_article vectored_diff in
  let id := ArticleMetadata.url (Article.metadata (ChunkedArticle.article chunked_article)) in
  ∃ w' snapshot,
    update_article_metadata vectored_diff w = (Ok tt, w') ∧
    (Metadata, FindOneAndReplace id true) ∈ requests w' ∧
    METADATA_COLLECTION w' = <[id := snapshot]> (METADATA_COLLECTION w) ∧
    METADATA_COLLECTION w' !! id = Some snapshot ∧
    (∀ other, other ≠ id → METADATA_COLLECTION w' !! other = METADATA_COLLECTION w !! other) ∧
    ChunkedArticleMetadataOnly._id snapshot = id ∧
    dom (ChunkedArticleMetadataOnly.chunks_metadata snapshot)
    = hashes (ChunkedArticle.chunks chunked_article) ∧
    (∀ h meta,
       ChunkedArticleMetadataOnly.chunks_metadata snapshot !! h = Some meta →
       ∃ c, c ∈ ChunkedArticle.chunks chunked_article ∧
            chunk_hash c = h ∧ Chunk.metadata c = meta) ∧
    (∀ prev h,
       METADATA_COLLECTION w !! id = Some prev →
       h ∈ dom (ChunkedArticleMetadataOnly.chunks_metadata prev) →
       h ∉ hashes (ChunkedArticle.chunks chunked_article) →
       ChunkedArticleMetadataOnly.chunks_metadata snapshot !! h = None) ∧
    (∀ w0 w1 d,
       calc_chunk_diff chunked_article w0 = (Ok d, w1) →
       dom (ChunkedArticleMetadataOnly.chunks_metadata snapshot)
       = hashes (ChunkedArticleDiff.new_chunks d)
           ∪ hashes (ChunkedArticleDiff.unchanged_chunks d)).
Proof.
  intros chunked_article id.
  destruct (update_article_metadata_run vectored_diff w) as (w' & Hrun & Hmeta & _ & Hreq).
  exists w', (ChunkedArticleMetadataOnly.from_vectored_diff vectored_diff).
  assert (Hdom : dom (ChunkedArticleMetadataOnly.chunks_metadata
                        (ChunkedArticleMetadataOnly.from_vectored_diff vectored_diff))
                 = hashes (ChunkedArticle.chunks chunked_article))
    by apply dom_metadata_by_hash.
  split; [exact Hrun|]. split; [|split; [|split; [|split; [|split; [|split; [|split; [|split]]]]]]].
  - rewrite Hreq. apply elem_of_app. right. left.
  - exact Hmeta.
  - rewrite Hmeta. apply lookup_insert_eq.
  - intros other Hother. rewrite Hmeta. by apply lookup_insert_ne.
  - done.
  - exact Hdom.
  - intros h meta. apply metadata_by_hash_lookup.
  - intros prev h _ _ Hgone. apply not_elem_of_dom. by rewrite Hdom.
  - intros w0 w1 d Hdiff. rewrite Hdom.
    destruct (calc_chunk_diff_run chunked_article w0) as [w2 Hrun0].
    rewrite Hrun0 in Hdiff. injection Hdiff as <- _.
    destruct (METADATA_COLLECTION w0 !! _) as [prev|]; simpl.
    + symmetry.
      apply (hashes_filter_split
               (λ c, chunk_hash c ∈ dom (ChunkedArticleMetadataOnly.chunks_metadata prev))).
    + unfold hashes at 3. simpl. set_solver.
Qed.

(** The second pass over an article whose middle chunk changed: the stored
    snapshot has the three current hashes, and the hash of the old middle
    chunk is gone. *)
Lemma update_article_metadata_replaces_revision :
  ∃ w' snapshot,
    update_article_metadata (C:=mem_collaborators)
      {| VectoredChunkedArticleDiff.chunked_article := article_v2;
         VectoredChunkedArticleDiff.new_chunks := [];
         VectoredChunkedArticleDiff.deleted_chunks := [] |}
      (world_with_snapshot article_v1) = (Ok tt, w') ∧
    METADATA_COLLECTION w' !! "https://en.wikipedia.org/wiki/Rocq" = Some snapshot ∧
    ChunkedArticleMetadataOnly.chunks_metadata snapshot !! "h-cd" = None ∧
    size (ChunkedArticleMetadataOnly.chunks_metadata snapshot) = 3.
Proof.
  destruct (update_article_metadata_replaces mem_collaborators
              {| VectoredChunkedArticleDiff.chunked_article := article_v2;
                 VectoredChunkedArticleDiff.new_chunks := [];
                 VectoredChunkedArticleDiff.deleted_chunks := [] |}
              (world_with_snapshot article_v1))
    as (w' & snapshot & Hrun & _ & _ & Hstored & _ & _ & Hdom & _ & Hgone & _).
  exists w', snapshot. split; [exact Hrun|]. split; [exact Hstored|]. split.
  - apply (Hgone (ChunkedArticleMetadataOnly.from_chunked_article article_v1)).
    + vm_compute. reflexivity.
    + apply elem_of_dom. eexists. vm_compute. reflexivity.
    + rewrite elem_of_hashes. simpl. rewrite !elem_of_cons, elem_of_nil.
      intros [Heq | [Heq | [Heq | []]]]; discriminate Heq.
  - rewrite <- (size_dom (D:=gset string)), Hdom. vm_compute. reflexivity.
Defined.

Lemma for_each_returns {A} (l : list A) (body : A → M unit) (w : World) :
  (∀ x w, ∃ w', body x w = (Ok tt, w')) →
  ∃ w', for_each l body w = (Ok tt, w').
Proof.
  intros Hbody. revert w. induction l as [|x l IH]; intros w; simpl.
  - by exists w.
  - unfold bind. destruct (Hbody x w) as [w1 ->]. apply IH.
Qed.

Lemma delete_vectored_chunks_returns (chunks : list ChunkMetadata.t) (w : World) :
  ∃ w', delete_vectored_chunks chunks w = (Ok tt, w').
Proof.
  unfold delete_vectored_chunks, bind.
  destruct (for_each_returns (batch_list chunks batch_size)
              (λ batch, EMBEDDING_delete_many (ChunkMetadata.hash <$> batch)) w)
    as [w1 ->].
  - intros x w0. unfold EMBEDDING_delete_many, submit, modify, bind. by eexists.
  - unfold METRICS_update_database, modify. by eexists.
Qed.

(** C10. [store_article_diff] hands back the diff it was given: whatever
    the store answers, it either returns its argument or raises the
    [ValueError] of [insert_vectored_chunks], and it returns (its argument)
    whenever no bulk insert of the operation is answered with an error
    other than [DOCUMENT_ALREADY_EXISTS]. *)
Theorem store_article_diff_returns_argument (C : Collaborators)
    (article_diff : VectoredChunkedArticleDiff.t) (w : World) :
  ((store_article_diff article_diff w).1 = Ok article_diff ∨
   ∃ errors, (store_article_diff article_diff w).1 = Raise (ValueError errors)) ∧
  (Forall tolerated
     (bulk_inserts (EMBEDDING_COLLECTION w)
        (documents_of
           <$> batch_list (VectoredChunkedArticleDiff.new_chunks article_diff) batch_size)).1 →
   ∃ w', store_article_diff article_diff w = (Ok article_diff, w')).
Proof.
  assert (Hrest : ∀ w1, ∃ w',
            (delete_vectored_chunks (VectoredChunkedArticleDiff.deleted_chunks article_diff) ;;;
             update_article_metadata article_diff ;;;
             ret article_diff) w1 = (Ok article_diff, w')).
  { intros w1. unfold bind.
    destruct (delete_vectored_chunks_returns
                (VectoredChunkedArticleDiff.deleted_chunks article_diff) w1) as [w2 ->].
    destruct (update_article_metadata_run article_diff w2) as (w3 & -> & _).
    by eexists. }
  split.
  - destruct (store_article_diff article_diff w) as [res fin] eqn:Hstore. simpl.
    unfold store_article_diff in Hstore. unfold bind at 1 in Hstore.
    destruct (insert_vectored_chunks _ w) as [[[]|e] w1] eqn:Hins.
    + left. destruct (Hrest w1) as [w' Hw']. rewrite Hw' in Hstore.
      by injection Hstore as <- _.
    + right. injection Hstore as <- _.
      unfold insert_vectored_chunks, bind in Hins.
      destruct (for_each _ insert_batch w) as [[[]|e'] w2] eqn:Hloop.
      * unfold METRICS_update_database, modify in Hins. discriminate.
      * injection Hins as <- _.
        assert (Hraise : ∀ batches w0 e0 w3,
                  for_each batches insert_batch w0 = (Raise e0, w3) →
                  ∃ errors, e0 = ValueError errors).
        { clear. intros batches. induction batches as [|b bs IH]; intros w0 e0 w3 Hl.
          - discriminate.
          - simpl in Hl. unfold bind in Hl.
            destruct (insert_batch_run b w0) as (w1 & Hb & _). rewrite Hb in Hl.
            destruct (decide (tolerated _)).
            + by apply IH in Hl.
            + injection Hl as <- _. by eexists. }
        destruct (Hraise _ _ _ _ Hloop) as [errs ->]. by exists errs.
  - intros Hall.
    destruct (insert_vectored_chunks_tolerated _ w Hall) as (w1 & Hins & _).
    unfold store_article_diff. unfold bind at 1. rewrite Hins. apply Hrest.
Qed.

(** ** Admission and [process_article_metadata] *)

Lemma offer_all_cons {Pipeline Item : Type} (put : Pipeline → Item → bool * Pipeline)
    (p : Pipeline) (x : Item) (l : list Item) :
  offer_all put p (x :: l) = offer_all put (put p x).2 l.
Proof. done. Qed.

(** The loop, for any pipeline: it returns [True] when every item, offered
    in order, was admitted, and otherwise stops at the first item declined,
    having offered nothing after it. *)
Lemma process_article_metadata_run {Pipeline Item : Type}
    (put : Pipeline → Item → bool * Pipeline) (p : Pipeline) (items : list Item) :
  let res := process_article_metadata put p items in
  (res.1 = true →
     res.2 = offer_all put p items ∧
     ∀ i x, items !! i = Some x → (put (offer_all put p (take i items)) x).1 = true) ∧
  (res.1 = false →
     ∃ i x,
       items !! i = Some x ∧
       (∀ j y, j < i → items !! j = Some y →
               (put (offer_all put p (take j items)) y).1 = true) ∧
       (put (offer_all put p (take i items)) x).1 = false ∧
       res.2 = offer_all put p (take (S i) items)).
Proof.
  revert p. induction items as [|x items IH]; intros p; simpl.
  - split; [|discriminate]. intros _. split; [done|]. intros i y Hi. done.
  - destruct (put p x) as [b p1] eqn:Hput. simpl. destruct b.
    + destruct (IH p1) as [IHt IHf]. split.
      * intros Ht. destruct (IHt Ht) as [Hres Hall]. split.
        { exact Hres. }
        intros [|i] y Hi; simpl in Hi.
        { injection Hi as <-. simpl. by rewrite Hput. }
        rewrite firstn_cons, offer_all_cons, Hput. by apply Hall.
      * intros Hf. destruct (IHf Hf) as (i & y & Hi & Hbefore & Hdecl & Hres).
        exists (S i), y. split; [done|]. split; [|split].
        { intros [|j] z Hj Hz; simpl in Hz.
          - injection Hz as <-. simpl. by rewrite Hput.
          - rewrite firstn_cons, offer_all_cons, Hput. apply Hbefore; [lia | done]. }
        { rewrite firstn_cons, offer_all_cons, Hput. exact Hdecl. }
        { exact Hres. }
    + split; [discriminate|]. intros _. exists 0, x. split; [done|]. split; [|split].
      * intros j y Hj. lia.
      * simpl. by rewrite Hput.
      * reflexivity.
Qed.

(** What offering a list of items makes of the modelled pipeline. *)
Lemma offer_all_pipeline (offered : list ArticleMetadata.t) (p : AsyncPipeline.t) :
  let room := AsyncPipeline.max_items p - AsyncPipeline.source_counter p in
  let p' := offer_all AsyncPipeline.put_to_first_step p offered in
  AsyncPipeline.max_items p' = AsyncPipeline.max_items p ∧
  AsyncPipeline.steps p' = AsyncPipeline.steps p ∧
  AsyncPipeline.source_counter p'
  = AsyncPipeline.source_counter p + length offered `min` room ∧
  AsyncPipeline.items p'
  = AsyncPipeline.items p ++ ((λ x, (x, AsyncPipeline.Pending)) <$> take room offered).
Proof.
  revert p. induction offered as [|x l IH]; intros p room p'.
  - subst p'. unfold offer_all. simpl. rewrite take_nil, app_nil_r.
    repeat split; lia.
  - subst p'. rewrite offer_all_cons.
    destruct (IH (AsyncPipeline.put_to_first_step p x).2) as (Hmax & Hsteps & Hcount & Hitems).
    rewrite Hmax, Hsteps, Hcount, Hitems. clear Hmax Hsteps Hcount Hitems.
    unfold AsyncPipeline.put_to_first_step. subst room.
    destruct (decide (AsyncPipeline.source_counter p < AsyncPipeline.max_items p))
      as [Hroom | Hfull]; cbn [fst snd AsyncPipeline.max_items AsyncPipeline.steps
                               AsyncPipeline.source_counter AsyncPipeline.items].
    + replace (AsyncPipeline.max_items p - AsyncPipeline.source_counter p)
        with (S (AsyncPipeline.max_items p - S (AsyncPipeline.source_counter p))) by lia.
      rewrite firstn_cons, fmap_cons, <- app_assoc.
      cbn [length]. repeat split; try done; lia.
    + replace (AsyncPipeline.max_items p - AsyncPipeline.source_counter p) with 0 by lia.
      rewrite !take_0. cbn [length]. repeat split; try done; lia.
Qed.

Lemma offer_all_full (offered : list ArticleMetadata.t) (p : AsyncPipeline.t) :
  ¬ AsyncPipeline.source_counter p < AsyncPipeline.max_items p →
  offer_all AsyncPipeline.put_to_first_step p offered = p.
Proof.
  intros Hfull. induction offered as [|x l IH]; [done|].
  rewrite offer_all_cons. unfold AsyncPipeline.put_to_first_step at 2.
  by rewrite decide_False.
Qed.

Lemma process_article_metadata_pipeline (items : list ArticleMetadata.t) (p : AsyncPipeline.t) :
  process_article_metadata AsyncPipeline.put_to_first_step p items
  = (bool_decide (length items ≤ AsyncPipeline.max_items p - AsyncPipeline.source_counter p),
     offer_all AsyncPipeline.put_to_first_step p items).
Proof.
  revert p. induction items as [|x l IH]; intros p.
  - cbn [process_article_metadata length]. by rewrite bool_decide_eq_true_2 by lia.
  - cbn [process_article_metadata]. rewrite offer_all_cons, IH.
    destruct (AsyncPipeline.put_to_first_step p x) as [b p1] eqn:Hput.
    unfold AsyncPipeline.put_to_first_step in Hput.
    destruct (decide (AsyncPipeline.source_counter p < AsyncPipeline.max_items p))
      as [Hroom | Hfull]; injection Hput as <- <-; cbn [fst snd].
    + f_equal. apply bool_decide_ext. cbn [length AsyncPipeline.max_items
                                            AsyncPipeline.source_counter]. lia.
    + rewrite bool_decide_eq_false_2 by (cbn [length]; lia). f_equal.
      symmetry. by apply offer_all_full.
Qed.

(** Running the pipeline moves each item on its own. *)
Lemma items_iter_step (transform_ok : nat → ArticleMetadata.t → bool) (n : nat)
    (p : AsyncPipeline.t) :
  AsyncPipeline.steps (Nat.iter n (AsyncPipeline.step transform_ok) p) = AsyncPipeline.steps p ∧
  AsyncPipeline.items (Nat.iter n (AsyncPipeline.step transform_ok) p)
  = (λ it, (it.1, Nat.iter n (AsyncPipeline.advance transform_ok (AsyncPipeline.steps p) it.1) it.2))
      <$> AsyncPipeline.items p.
Proof.
  induction n as [|n [IHs IHi]].
  - split; [done|]. simpl. rewrite <- (list_fmap_id (AsyncPipeline.items p)) at 1.
    apply list_fmap_ext. by intros _ [x st] _.
  - split; [simpl; exact IHs|].
    rewrite Nat.iter_succ. unfold AsyncPipeline.step at 1. simpl.
    rewrite IHi, IHs, <- list_fmap_compose. apply list_fmap_ext. by intros _ [x st] _.
Qed.

Lemma pending_item_outcome (transform_ok : nat → ArticleMetadata.t → bool)
    (item : ArticleMetadata.t) :
  Nat.iter 6 (AsyncPipeline.advance transform_ok 5 item) AsyncPipeline.Pending
  = outcome transform_ok item.
Proof.
  unfold outcome. simpl.
  destruct (transform_ok 1 item); simpl; [|done].
  destruct (transform_ok 2 item); simpl; [|done].
  destruct (transform_ok 3 item); simpl; [|done].
  destruct (transform_ok 4 item); simpl; [|done].
  destruct (transform_ok 5 item); simpl; done.
Qed.

(** C8. Admission and the feeding loop.
    - The loop, whatever the pipeline: [process_article_metadata] offers the
      items in list order; it returns [True] exactly when every item was
      admitted, and otherwise it stops at the first item declined, returns
      [False], and has offered nothing after that item.
    - Admission, as the specification describes it: on a pipeline created
      with [max_items], a call returns [True] when fewer than [max_items]
      calls came before it and [False] afterwards.
    - Together: on a new pipeline the loop returns [True] exactly when the
      list has at most [max_items] items; the items admitted are the first
      [max_items] of the list, in order; and when the pipeline is left to
      run, each of them ends [Completed] if the transform of every stage
      succeeds on it ([Failed] otherwise), whether or not later items were
      declined. *)
Theorem process_article_metadata_admission :
  (∀ (Pipeline Item : Type) (put : Pipeline → Item → bool * Pipeline)
     (p : Pipeline) (items : list Item),
     let res := process_article_metadata put p items in
     (res.1 = true →
        res.2 = offer_all put p items ∧
        ∀ i x, items !! i = Some x → (put (offer_all put p (take i items)) x).1 = true) ∧
     (res.1 = false →
        ∃ i x,
          items !! i = Some x ∧
          (∀ j y, j < i → items !! j = Some y →
                  (put (offer_all put p (take j items)) y).1 = true) ∧
          (put (offer_all put p (take i items)) x).1 = false ∧
          res.2 = offer_all put p (take (S i) items)))
  ∧
  (∀ (max_items : nat) (offered : list ArticleMetadata.t) (item : ArticleMetadata.t),
     (AsyncPipeline.put_to_first_step
        (offer_all AsyncPipeline.put_to_first_step (create_pipeline max_items) offered)
        item).1
     = bool_decide (length offered < max_items))
  ∧
  (∀ (max_items : nat) (items : list ArticleMetadata.t)
     (transform_ok : nat → ArticleMetadata.t → bool),
     let res := process_article_metadata AsyncPipeline.put_to_first_step
                  (create_pipeline max_items) items in
     res.1 = bool_decide (length items ≤ max_items) ∧
     AsyncPipeline.items res.2
     = (λ x, (x, AsyncPipeline.Pending)) <$> take max_items items ∧
     AsyncPipeline.items (AsyncPipeline.run transform_ok res.2)
     = (λ x, (x, outcome transform_ok x)) <$> take max_items items ∧
     (∀ x, x ∈ take max_items items →
           (∀ k, 1 ≤ k ≤ 5 → transform_ok k x = true) →
           (x, AsyncPipeline.Completed)
             ∈ AsyncPipeline.items (AsyncPipeline.run transform_ok res.2))).
Proof.
  split; [|split].
  - intros Pipeline Item put p items. apply process_article_metadata_run.
  - intros max_items offered item.
    destruct (offer_all_pipeline offered (create_pipeline max_items))
      as (Hmax & _ & Hcount & _).
    unfold AsyncPipeline.put_to_first_step at 1. rewrite Hmax, Hcount.
    cbn [create_pipeline AsyncPipeline.max_items AsyncPipeline.source_counter].
    destruct (decide (0 + length offered `min` (max_items - 0) < max_items)) as [Hlt | Hge];
      cbn [fst]; symmetry.
    + apply bool_decide_eq_true_2. lia.
    + apply bool_decide_eq_false_2. lia.
  - intros max_items items transform_ok res.
    assert (Hres : res = (bool_decide (length items ≤ max_items),
                          offer_all AsyncPipeline.put_to_first_step
                            (create_pipeline max_items) items)).
    { unfold res. rewrite process_article_metadata_pipeline.
      cbn [create_pipeline AsyncPipeline.max_items AsyncPipeline.source_counter].
      by rewrite Nat.sub_0_r. }
    destruct (offer_all_pipeline items (create_pipeline max_items))
      as (_ & Hsteps & _ & Hitems).
    cbn [create_pipeline AsyncPipeline.max_items AsyncPipeline.source_counter
         AsyncPipeline.items AsyncPipeline.steps] in Hsteps, Hitems.
    rewrite Nat.sub_0_r, app_nil_l in Hitems.
    assert (Hrun : AsyncPipeline.items (AsyncPipeline.run transform_ok res.2)
                   = (λ x, (x, outcome transform_ok x)) <$> take max_items items).
    { rewrite Hres. cbn [snd]. unfold AsyncPipeline.run.
      destruct (items_iter_step transform_ok
                  (S (AsyncPipeline.steps
                        (offer_all AsyncPipeline.put_to_first_step
                           (create_pipeline max_items) items)))
                  (offer_all AsyncPipeline.put_to_first_step
                     (create_pipeline max_items) items)) as [_ ->].
      rewrite Hsteps, Hitems, <- list_fmap_compose.
      apply list_fmap_ext. intros _ x _. cbn [compose fst snd].
      by rewrite pending_item_outcome. }
    split; [by rewrite Hres|]. split; [by rewrite Hres|]. split; [exact Hrun|].
    intros x Hx Hok. rewrite Hrun. apply list_elem_of_fmap. exists x. split; [|done].
    unfold outcome. cbn [seq forallb]. by rewrite !Hok by lia.
Qed.

(** ** The theorems at work on sample data *)

(** Twenty units, the eighth of which is already stored, on the in-memory
    store. *)
Lemma insert_tolerates_already_exists_twenty :
  ∃ w',
    insert_vectored_chunks (C:=mem_collaborators) (sample_units 20) (world_with_unit 7)
    = (Ok tt, w') ∧
    EMBEDDING_COLLECTION w' !! unit_text 3
    = Some (EmbeddingDocument.from_vectored_chunk (sample_unit 3)) ∧
    METRICS w' !!! "chunk_collision" = 1 ∧
    existing_chunks_log w'
    = [delete "$vector"
         (EmbeddingDocument.to_dict (EmbeddingDocument.from_vectored_chunk (sample_unit 7)))].
Proof.
  destruct (proj2 (proj2 insert_tolerates_already_exists)
              (sample_units 20) (sample_unit 7) (world_with_unit 7))
    as (w' & Hrun & Hstored & _ & Hcol & Hlog).
  - reflexivity.
  - refine (bool_decide_unpack _ _). vm_compute. exact I.
  - apply list_elem_of_lookup. exists 7. reflexivity.
  - apply Forall_forall. refine (bool_decide_unpack _ _). vm_compute. exact I.
  - exists w'. split; [exact Hrun|]. split; [|split].
    + apply (Hstored (sample_unit 3)).
      * apply list_elem_of_lookup. exists 3. reflexivity.
      * discriminate.
    + exact Hcol.
    + exact Hlog.
Defined.

(** Twenty units that fit and one that the store refuses as too large: the
    second batch aborts the operation, and the first batch stays stored. *)
Lemma insert_aborts_on_other_error_too_large :
  ∃ w',
    insert_vectored_chunks (C:=limited_collaborators 1)
      (sample_units 20 ++ [large_unit]) empty_world
    = (Raise (ValueError [too_large_error "h-long"]), w') ∧
    requests w' = [insert_request (sample_units 20); insert_request [large_unit]] ∧
    size (EMBEDDING_COLLECTION w') = 20.
Proof.
  destruct (proj1 (proj2 insert_aborts_on_other_error) (limited_collaborators 1)
              (sample_units 20 ++ [large_unit]) [sample_units 20] [] [large_unit] empty_world)
    as (w' & Hrun & Hreq & Hemb & _).
  - reflexivity.
  - unfold tolerated. refine (bool_decide_unpack _ _). vm_compute. exact I.
  - vm_compute. apply Exists_cons_hd. discriminate.
  - exists w'. split; [exact Hrun|]. split; [exact Hreq|].
    rewrite Hemb. vm_compute. reflexivity.
Defined.


(** Three items offered to a pipeline that admits two: the loop returns
    [False], and the first item still completes. *)
Lemma process_article_metadata_admission_cutoff :
  (process_article_metadata AsyncPipeline.put_to_first_step
     (create_pipeline 2) (sample_items 3)).1 = false ∧
  ({| ArticleMetadata.url := unit_text 0 |}, AsyncPipeline.Completed)
    ∈ AsyncPipeline.items
        (AsyncPipeline.run (λ _ _, true)
           (process_article_metadata AsyncPipeline.put_to_first_step
              (create_pipeline 2) (sample_items 3)).2).
Proof.
  destruct (proj2 (proj2 process_article_metadata_admission)
              2 (sample_items 3) (λ _ _, true))
    as (Hres & _ & _ & Hdone).
  split; [exact Hres|]. apply Hdone.
  - apply list_elem_of_lookup. exists 0. reflexivity.
  - reflexivity.
Defined.

(** A diff of three new units is handed back by the store step. *)
Lemma store_article_diff_returns_argument_new_units :
  ∃ w',
    store_article_diff (C:=mem_collaborators)
      {| VectoredChunkedArticleDiff.chunked_article := article_v1;
         VectoredChunkedArticleDiff.new_chunks := sample_units 3;
         VectoredChunkedArticleDiff.deleted_chunks := [] |} empty_world
    = (Ok {| VectoredChunkedArticleDiff.chunked_article := article_v1;
             VectoredChunkedArticleDiff.new_chunks := sample_units 3;
             VectoredChunkedArticleDiff.deleted_chunks := [] |}, w').
Proof.
  apply (proj2 (store_article_diff_returns_argument mem_collaborators
                  {| VectoredChunkedArticleDiff.chunked_article := article_v1;
                     VectoredChunkedArticleDiff.new_chunks := sample_units 3;
                     VectoredChunkedArticleDiff.deleted_chunks := [] |} empty_world)).
  unfold tolerated. refine (bool_decide_unpack _ _). vm_compute. exact I.
Defined.

(** ** [chunk_article] *)



(** ** Counters *)

(** Reads every counter of a finished update off the map before it. *)
Ltac read_counters :=
  unfold add_counters; cbn [foldl fst snd];
  repeat first [ rewrite lookup_total_insert_eq
               | rewrite lookup_total_insert_ne by discriminate
               | rewrite lookup_insert_ne by congruence ].

(** ** What [calc_chunk_diff] does to the world *)

Lemma calc_chunk_diff_effects (ca : ChunkedArticle.t) (w : World) :
  ∃ d w',
    calc_chunk_diff ca w = (Ok d, w') ∧
    requests w' = requests w ++ [(Metadata, FindOne (article_url ca))] ∧
    EMBEDDING_COLLECTION w' = EMBEDDING_COLLECTION w ∧
    METADATA_COLLECTION w' = METADATA_COLLECTION w ∧
    SUGGESTIONS_COLLECTION w' = SUGGESTIONS_COLLECTION w ∧
    RECENT_ARTICLES w' = RECENT_ARTICLES w ∧
    existing_chunks_log w' = existing_chunks_log w ∧
    METRICS w' !!! "chunk_diff_new"
    = METRICS w !!! "chunk_diff_new" + length (ChunkedArticleDiff.new_chunks d) ∧
    METRICS w' !!! "chunk_diff_deleted"
    = METRICS w !!! "chunk_diff_deleted" + length (ChunkedArticleDiff.deleted_chunks d) ∧
    METRICS w' !!! "chunk_diff_unchanged"
    = METRICS w !!! "chunk_diff_unchanged" + length (ChunkedArticleDiff.unchanged_chunks d) ∧
    METRICS w' !!! "articles_read"
    = METRICS w !!! "articles_read"
      + match METADATA_COLLECTION w !! article_url ca with Some _ => 1 | None => 0 end ∧
    (∀ k, k ∉ ["chunk_diff_new"; "chunk_diff_deleted"; "chunk_diff_unchanged"; "articles_read"] →
          METRICS w' !! k = METRICS w !! k).
Proof.
  unfold calc_chunk_diff, METADATA_find_one, bind, submit, gets, modify, article_url.
  cbn [ChunkedArticleMetadataOnly.from_chunked_article ChunkedArticleMetadataOnly._id
       METADATA_COLLECTION set_requests].
  destruct (METADATA_COLLECTION w !! _) as [prev|];
    unfold METRICS_update_chunks, METRICS_update_database, modify, ret;
    eexists _, _; (split; [reflexivity|]);
    cbn [requests EMBEDDING_COLLECTION METADATA_COLLECTION SUGGESTIONS_COLLECTION
         RECENT_ARTICLES existing_chunks_log METRICS set_requests set_METRICS
         ChunkedArticleDiff.new_chunks ChunkedArticleDiff.deleted_chunks
         ChunkedArticleDiff.unchanged_chunks];
    do 6 (split; [done|]).
  - split; [|split; [|split; [|split]]].
    + by read_counters.
    + by read_counters.
    + by read_counters.
    + by read_counters.
    + intros k Hk. rewrite !not_elem_of_cons in Hk. destruct Hk as (? & ? & ? & ? & _).
      by read_counters.
  - split; [|split; [|split; [|split]]].
    + by read_counters.
    + read_counters. simpl. lia.
    + read_counters. simpl. lia.
    + read_counters. lia.
    + intros k Hk. rewrite !not_elem_of_cons in Hk. destruct Hk as (? & ? & ? & ? & _).
      by read_counters.
Qed.

(** X2. [calc_chunk_diff] only reads: it submits one [find_one] on the
    metadata collection, keyed by the article's url, and leaves the three
    collections, the registry and the [existing_chunks] log as they were. *)
Theorem calc_chunk_diff_reads_only (ca : ChunkedArticle.t) (w : World) :
  ∃ d w',
    calc_chunk_diff ca w = (Ok d, w') ∧
    requests w' = requests w ++ [(Metadata, FindOne (article_url ca))] ∧
    EMBEDDING_COLLECTION w' = EMBEDDING_COLLECTION w ∧
    METADATA_COLLECTION w' = METADATA_COLLECTION w ∧
    SUGGESTIONS_COLLECTION w' = SUGGESTIONS_COLLECTION w ∧
    RECENT_ARTICLES w' = RECENT_ARTICLES w ∧
    existing_chunks_log w' = existing_chunks_log w.
Proof.
  destruct (calc_chunk_diff_effects ca w)
    as (d & w' & Hrun & Hreq & Hemb & Hmeta & Hsug & Hrec & Hlog & _).
  by exists d, w'.
Qed.

(** X3. The diff counters account for the diff returned: [chunk_diff_new],
    [chunk_diff_deleted] and [chunk_diff_unchanged] grow by the lengths of
    the three lists of the result, [articles_read] grows by one exactly when
    a previous snapshot was found, and no other counter moves. *)
Theorem calc_chunk_diff_counters (ca : ChunkedArticle.t) (w : World) :
  ∃ d w',
    calc_chunk_diff ca w = (Ok d, w') ∧
    METRICS w' !!! "chunk_diff_new"
    = METRICS w !!! "chunk_diff_new" + length (ChunkedArticleDiff.new_chunks d) ∧
    METRICS w' !!! "chunk_diff_deleted"
    = METRICS w !!! "chunk_diff_deleted" + length (ChunkedArticleDiff.deleted_chunks d) ∧
    METRICS w' !!! "chunk_diff_unchanged"
    = METRICS w !!! "chunk_diff_unchanged" + length (ChunkedArticleDiff.unchanged_chunks d) ∧
    METRICS w' !!! "articles_read"
    = METRICS w !!! "articles_read"
      + match METADATA_COLLECTION w !! article_url ca with Some _ => 1 | None => 0 end ∧
    (∀ k, k ∉ ["chunk_diff_new"; "chunk_diff_deleted"; "chunk_diff_unchanged"; "articles_read"] →
          METRICS w' !! k = METRICS w !! k).
Proof.
  destruct (calc_chunk_diff_effects ca w)
    as (d & w' & Hrun & _ & _ & _ & _ & _ & _ & Hcounters).
  by exists d, w'.
Qed.

(** ** The snapshot written by a pass, read by the next *)

Lemma filter_all {A} (P : A → Prop) `{∀ x, Decision (P x)} (l : list A) :
  (∀ y, y ∈ l → P y) → filter P l = l.
Proof.
  induction l as [|a l IH]; intros Hl; [done|].
  rewrite filter_cons, decide_True by (apply Hl; left).
  f_equal. apply IH. intros y Hy. apply Hl. by right.
Qed.

(** The diff of an article against its own snapshot. *)
Lemma calc_chunk_diff_own_snapshot (ca : ChunkedArticle.t) (w : World) :
  METADATA_COLLECTION w !! article_url ca
  = Some (ChunkedArticleMetadataOnly.from_chunked_article ca) →
  ∃ w',
    calc_chunk_diff ca w
    = (Ok {| ChunkedArticleDiff.chunked_article := ca;
             ChunkedArticleDiff.new_chunks := [];
             ChunkedArticleDiff.deleted_chunks := [];
             ChunkedArticleDiff.unchanged_chunks := ChunkedArticle.chunks ca |}, w').
Proof.
  intros Hprev. destruct (calc_chunk_diff_run ca w) as [w' Hrun].
  exists w'. rewrite Hrun. unfold article_url in Hprev. rewrite Hprev.
  cbn [ChunkedArticleMetadataOnly.from_chunked_article
       ChunkedArticleMetadataOnly.chunks_metadata].
  rewrite dom_metadata_by_hash.
  assert (Hin : ∀ c, c ∈ ChunkedArticle.chunks ca →
                     chunk_hash c ∈ hashes (ChunkedArticle.chunks ca)).
  { intros c Hc. apply elem_of_hashes. by apply list_elem_of_fmap_2. }
  do 2 f_equal. f_equal.
  - apply filter_none. intros c Hc Hout. by apply Hout, Hin.
  - apply filter_none. intros meta Hmeta Hout. apply Hout.
    apply list_elem_of_fmap in Hmeta as ([k m] & -> & Hkm).
    apply elem_of_map_to_list in Hkm. cbn [snd].
    rewrite (metadata_by_hash_keyed _ _ _ Hkm).
    rewrite <- dom_metadata_by_hash. apply elem_of_dom. by eexists.
  - by apply filter_all.
Qed.

(** X4. Round trip of the snapshot: after [update_article_metadata] has
    written the snapshot of a vectored diff, [calc_chunk_diff] of the same
    chunked article finds nothing new and nothing deleted, and every chunk
    unchanged, also when chunks repeat. *)
Theorem snapshot_round_trip (C : Collaborators)
    (vectored_diff : VectoredChunkedArticleDiff.t) (w : World) :
  let ca := VectoredChunkedArticleDiff.chunked_article vectored_diff in
  ∃ w1 d w2,
    update_article_metadata vectored_diff w = (Ok tt, w1) ∧
    calc_chunk_diff ca w1 = (Ok d, w2) ∧
    ChunkedArticleDiff.new_chunks d = [] ∧
    ChunkedArticleDiff.deleted_chunks d = [] ∧
    ChunkedArticleDiff.unchanged_chunks d = ChunkedArticle.chunks ca.
Proof.
  intros ca.
  destruct (update_article_metadata_run vectored_diff w) as (w1 & Hrun & Hmeta & _).
  destruct (calc_chunk_diff_own_snapshot ca w1) as [w2 Hdiff].
  { rewrite Hmeta. apply lookup_insert_eq. }
  by eexists w1, _, w2.
Qed.

(** ** [vectorize_diff] when the vectors and the chunks do not match *)

Lemma fmap_zip_with_take_r {A B C D} (f : A → B → C) (g : C → D) (h : B → D)
    (l : list A) (k : list B) :
  (∀ x y, g (f x y) = h y) →
  g <$> zip_with f l k = h <$> take (length l) k.
Proof.
  intros Hg. revert k. induction l as [|x l IH]; intros [|y k]; simpl; try done.
  f_equal; [apply Hg | apply IH].
Qed.

Lemma fmap_zip_with_take_l {A B C D} (f : A → B → C) (g : C → D) (h : A → D)
    (l : list A) (k : list B) :
  (∀ x y, g (f x y) = h x) →
  g <$> zip_with f l k = h <$> take (length k) l.
Proof.
  intros Hg. revert k. induction l as [|x l IH]; intros [|y k]; simpl; try done.
  f_equal; [apply Hg | apply IH].
Qed.

(** X5. [vectorize_diff] pairs by [zip]: the vectored chunks are as many as
    the shorter of the vectors and the new chunks; they are the first new
    chunks, in order, with the first vectors, and a new chunk beyond the
    vectors returned is left out of the result. The counter
    [chunks_vectorized] grows by the number of vectors returned, and nothing
    else of the world changes. When the embedding service raises,
    [vectorize_diff] raises the same error and the world is untouched. *)
Theorem vectorize_diff_zip (C : Collaborators) (article_diff : ChunkedArticleDiff.t)
    (w : World) :
  let new_chunks := ChunkedArticleDiff.new_chunks article_diff in
  match get_embeddings (Chunk.content <$> new_chunks) with
  | Ok vectors =>
      ∃ vd w',
        vectorize_diff article_diff w = (Ok vd, w') ∧
        length (VectoredChunkedArticleDiff.new_chunks vd)
        = length vectors `min` length new_chunks ∧
        VectoredChunk.chunk <$> VectoredChunkedArticleDiff.new_chunks vd
        = take (length vectors) new_chunks ∧
        VectoredChunk.vector <$> VectoredChunkedArticleDiff.new_chunks vd
        = take (length new_chunks) vectors ∧
        METRICS w' !!! "chunks_vectorized"
        = METRICS w !!! "chunks_vectorized" + length vectors ∧
        (∀ k, k ≠ "chunks_vectorized" → METRICS w' !! k = METRICS w !! k) ∧
        EMBEDDING_COLLECTION w' = EMBEDDING_COLLECTION w ∧
        METADATA_COLLECTION w' = METADATA_COLLECTION w ∧
        SUGGESTIONS_COLLECTION w' = SUGGESTIONS_COLLECTION w ∧
        RECENT_ARTICLES w' = RECENT_ARTICLES w ∧
        requests w' = requests w
  | Raise e => vectorize_diff article_diff w = (Raise e, w)
  end.
Proof.
  intros new_chunks. unfold vectorize_diff, embeddings_get_embeddings, bind.
  fold new_chunks. destruct (get_embeddings (Chunk.content <$> new_chunks)) as [vectors|e];
    [|done].
  unfold METRICS_update_chunks, modify, ret. eexists _, _. split; [reflexivity|].
  cbn [VectoredChunkedArticleDiff.new_chunks METRICS EMBEDDING_COLLECTION
       METADATA_COLLECTION SUGGESTIONS_COLLECTION RECENT_ARTICLES requests set_METRICS].
  split; [apply length_zip_with|].
  split.
  { rewrite (fmap_zip_with_take_r _ _ id) by done. apply list_fmap_id. }
  split.
  { rewrite (fmap_zip_with_take_l _ _ id) by done. apply list_fmap_id. }
  split; [by read_counters|].
  split; [|done]. intros k Hk. by read_counters.
Qed.

(** ** More on [insert_vectored_chunks] *)

Section InsertMore.
Context {C : Collaborators}.

(** A loop that ran to its end has met tolerated responses only. *)
Lemma insert_loop_returned (batches : list (list VectoredChunk.t)) (w w' : World) :
  for_each batches insert_batch w = (Ok tt, w') →
  Forall tolerated
    (bulk_inserts (EMBEDDING_COLLECTION w) (documents_of <$> batches)).1.
Proof.
  revert w. induction batches as [|b bs IH]; intros w Hrun; [constructor|].
  simpl in Hrun. unfold bind in Hrun.
  destruct (insert_batch_run b w) as (w1 & Hb & Hemb & _). rewrite Hb in Hrun.
  destruct (decide (tolerated _)) as [Htol | Hbad]; [|discriminate].
  simpl. constructor; [done|]. rewrite <- Hemb. by apply IH.
Qed.

(** What a returned [insert_vectored_chunks] has done. *)
Lemma insert_vectored_chunks_returned (vectored_chunks : list VectoredChunk.t) (w w' : World) :
  insert_vectored_chunks vectored_chunks w = (Ok tt, w') →
  let run := bulk_inserts (EMBEDDING_COLLECTION w)
               (documents_of <$> batch_list vectored_chunks batch_size) in
  Forall tolerated run.1 ∧
  EMBEDDING_COLLECTION w' = run.2 ∧
  requests w' = requests w ++ (insert_request <$> batch_list vectored_chunks batch_size) ∧
  METADATA_COLLECTION w' = METADATA_COLLECTION w ∧
  SUGGESTIONS_COLLECTION w' = SUGGESTIONS_COLLECTION w ∧
  RECENT_ARTICLES w' = RECENT_ARTICLES w ∧
  METRICS w' !!! "chunks_inserted"
  = METRICS w !!! "chunks_inserted" + length vectored_chunks ∧
  METRICS w' !!! "chunk_collision"
  = METRICS w !!! "chunk_collision" + sum_list ((λ r, length (errors r)) <$> run.1) ∧
  (∀ k, k ≠ "chunks_inserted" → k ≠ "chunk_collision" → METRICS w' !! k = METRICS w !! k).
Proof.
  intros Hrun run. unfold insert_vectored_chunks, bind in Hrun.
  destruct (for_each _ insert_batch w) as [[[]|e] w1] eqn:Hloop; [|discriminate].
  pose proof (insert_loop_returned _ _ _ Hloop) as Hall.
  destruct (insert_loop_tolerated _ w Hall)
    as (w2 & Hloop2 & Hemb & Hreq & Hmeta & Hsug & Hrec & Hcol & Hoth & _).
  rewrite Hloop in Hloop2. injection Hloop2 as <-.
  unfold METRICS_update_database, modify in Hrun. injection Hrun as <-.
  cbn [EMBEDDING_COLLECTION requests METADATA_COLLECTION SUGGESTIONS_COLLECTION
       RECENT_ARTICLES METRICS set_METRICS].
  repeat (split; [done|]). split; [|split].
  - read_counters. unfold lookup_total, map_lookup_total. by rewrite Hoth.
  - read_counters. exact Hcol.
  - intros k Hk1 Hk2. read_counters. by apply Hoth.
Qed.

(** X6. A batch answered with both kinds of errors: the collisions are
    still counted and logged, then the batch raises, and the error raised
    carries every error of the response, the [DOCUMENT_ALREADY_EXISTS]
    ones included. *)
Theorem insert_batch_mixed_errors (batch : list VectoredChunk.t) (w : World) :
  let r := insert_many (EMBEDDING_COLLECTION w) (documents_of batch) in
  let collisions := filter already_exists (errors r.2) in
  collisions ≠ [] →
  Exists (λ e, ¬ already_exists e) (errors r.2) →
  ∃ w',
    insert_batch batch w = (Raise (ValueError (errors r.2)), w') ∧
    METRICS w' !!! "chunk_collision"
    = METRICS w !!! "chunk_collision" + length collisions ∧
    existing_chunks_log w'
    = existing_chunks_log w ++ not_inserted (documents_of batch) r.2 ∧
    EMBEDDING_COLLECTION w' = r.1.
Proof.
  intros r collisions Hcol Hbad.
  destruct (insert_batch_run batch w)
    as (w' & Hrun & Hemb & _ & _ & _ & _ & Hmet & Hlog).
  fold r in Hrun, Hemb, Hmet, Hlog. fold collisions in Hmet, Hlog.
  rewrite decide_False in Hrun by (by apply Exists_not_Forall).
  exists w'. split; [done|]. destruct collisions; [done|].
  rewrite Hmet, Hlog. by rewrite lookup_total_insert_eq.
Qed.

(** X7. When [insert_vectored_chunks] returns, every batch was submitted,
    in order, the documents submitted are those of the input, in order, and
    [chunks_inserted] has grown by the number of units given: the units the
    store reported as already existing are counted too. An empty input
    submits nothing. *)
Theorem insert_counts_submitted (vectored_chunks : list VectoredChunk.t) (w w' : World) :
  insert_vectored_chunks vectored_chunks w = (Ok tt, w') →
  requests w' = requests w ++ (insert_request <$> batch_list vectored_chunks batch_size) ∧
  concat (documents_of <$> batch_list vectored_chunks batch_size)
  = documents_of vectored_chunks ∧
  METRICS w' !!! "chunks_inserted"
  = METRICS w !!! "chunks_inserted" + length vectored_chunks ∧
  (vectored_chunks = [] → requests w' = requests w).
Proof.
  intros Hrun.
  destruct (insert_vectored_chunks_returned _ _ _ Hrun)
    as (_ & _ & Hreq & _ & _ & _ & Hcount & _ & _).
  split; [done|]. split; [|split; [done|]].
  - assert (Hconcat : ∀ bs : list (list VectoredChunk.t),
              concat (documents_of <$> bs) = documents_of (concat bs)).
    { induction bs as [|b bs IH]; [done|].
      rewrite fmap_cons, !concat_cons, IH. unfold documents_of. by rewrite fmap_app. }
    rewrite Hconcat. f_equal. unfold batch_list, batch_size.
    apply concat_batch_list_from; lia.
  - intros ->. rewrite Hreq. unfold batch_list. simpl. by rewrite app_nil_r.
Qed.

End InsertMore.

(** ** [delete_vectored_chunks] *)

Lemma delete_loop (batches : list (list ChunkMetadata.t)) (w : World) :
  ∃ w',
    for_each batches (λ batch, EMBEDDING_delete_many (ChunkMetadata.hash <$> batch)) w
    = (Ok tt, w') ∧
    requests w' = requests w ++ (delete_request <$> batches) ∧
    (∀ k, k ∈ ChunkMetadata.hash <$> concat batches → EMBEDDING_COLLECTION w' !! k = None) ∧
    (∀ k, k ∉ ChunkMetadata.hash <$> concat batches →
          EMBEDDING_COLLECTION w' !! k = EMBEDDING_COLLECTION w !! k) ∧
    METADATA_COLLECTION w' = METADATA_COLLECTION w ∧
    SUGGESTIONS_COLLECTION w' = SUGGESTIONS_COLLECTION w ∧
    RECENT_ARTICLES w' = RECENT_ARTICLES w ∧
    METRICS w' = METRICS w ∧
    existing_chunks_log w' = existing_chunks_log w.
Proof.
  revert w. induction batches as [|b bs IH]; intros w.
  - exists w. simpl. rewrite app_nil_r. repeat split; try done.
    intros k Hk. by apply elem_of_nil in Hk.
  - cbn [for_each]. unfold bind. unfold EMBEDDING_delete_many at 1.
    unfold submit, modify, bind.
    match goal with |- context [for_each bs _ ?w0] =>
      destruct (IH w0) as (w' & -> & Hreq & Hgone & Hkept & Hmeta & Hsug & Hrec & Hmet & Hlog)
    end.
    cbn [requests EMBEDDING_COLLECTION METADATA_COLLECTION SUGGESTIONS_COLLECTION
         RECENT_ARTICLES METRICS existing_chunks_log set_requests set_EMBEDDING_COLLECTION]
      in Hreq, Hkept, Hmeta, Hsug, Hrec, Hmet, Hlog.
    exists w'. split; [done|]. split.
    { rewrite Hreq, fmap_cons, <- app_assoc. done. }
    rewrite concat_cons, fmap_app.
    split; [|split; [|done]].
    + intros k Hk. destruct (decide (k ∈ ChunkMetadata.hash <$> concat bs)) as [Hin | Hout].
      * by apply Hgone.
      * rewrite Hkept by done. apply elem_of_app in Hk as [Hk | Hk]; [|done].
        by apply lookup_foldr_delete.
    + intros k Hk. rewrite not_elem_of_app in Hk. destruct Hk as [Hb Hbs].
      rewrite Hkept by done. by apply lookup_foldr_delete_not_elem_of.
Qed.

Lemma delete_vectored_chunks_effects (chunks : list ChunkMetadata.t) (w : World) :
  ∃ w',
    delete_vectored_chunks chunks w = (Ok tt, w') ∧
    requests w' = requests w ++ (delete_request <$> batch_list chunks batch_size) ∧
    (∀ k, k ∈ ChunkMetadata.hash <$> chunks → EMBEDDING_COLLECTION w' !! k = None) ∧
    (∀ k, k ∉ ChunkMetadata.hash <$> chunks →
          EMBEDDING_COLLECTION w' !! k = EMBEDDING_COLLECTION w !! k) ∧
    METADATA_COLLECTION w' = METADATA_COLLECTION w ∧
    SUGGESTIONS_COLLECTION w' = SUGGESTIONS_COLLECTION w ∧
    RECENT_ARTICLES w' = RECENT_ARTICLES w ∧
    METRICS w' = add_counters (METRICS w) [("chunks_deleted", length chunks)].
Proof.
  assert (Hconcat : concat (batch_list chunks batch_size) = chunks).
  { unfold batch_list, batch_size. apply concat_batch_list_from; lia. }
  destruct (delete_loop (batch_list chunks batch_size) w)
    as (w1 & Hloop & Hreq & Hgone & Hkept & Hmeta & Hsug & Hrec & Hmet & _).
  rewrite Hconcat in Hgone, Hkept.
  unfold delete_vectored_chunks, bind. rewrite Hloop.
  unfold METRICS_update_database, modify. eexists. split; [reflexivity|].
  cbn [requests EMBEDDING_COLLECTION METADATA_COLLECTION SUGGESTIONS_COLLECTION
       RECENT_ARTICLES METRICS set_METRICS].
  by rewrite Hmet.
Qed.


(** ** [update_article_metadata] and the registry *)

Lemma update_article_metadata_effects {C : Collaborators}
    (vectored_diff : VectoredChunkedArticleDiff.t) (w : World) :
  let new_metadata := ChunkedArticleMetadataOnly.from_vectored_diff vectored_diff in
  let registry := update_and_clone (RECENT_ARTICLES w) new_metadata in
  ∃ w',
    update_article_metadata vectored_diff w = (Ok tt, w') ∧
    METADATA_COLLECTION w'
    = <[ChunkedArticleMetadataOnly._id new_metadata := new_metadata]> (METADATA_COLLECTION w) ∧
    RECENT_ARTICLES w' = registry ∧
    SUGGESTIONS_COLLECTION w'
    = <[RecentArticles._id registry := registry]> (SUGGESTIONS_COLLECTION w) ∧
    EMBEDDING_COLLECTION w' = EMBEDDING_COLLECTION w ∧
    requests w'
    = requests w
        ++ [(Metadata, FindOneAndReplace (ChunkedArticleMetadataOnly._id new_metadata) true);
            (Suggestions, FindOneAndReplace (RecentArticles._id registry) true)] ∧
    METRICS w' = add_counters (METRICS w) [("articles_inserted", 1)] ∧
    existing_chunks_log w' = existing_chunks_log w.
Proof.
  intros new_metadata registry.
  unfold update_article_metadata, METADATA_find_one_and_replace,
    RECENT_ARTICLES_update_and_clone, SUGGESTIONS_find_one_and_replace,
    METRICS_update_database, submit, modify, bind.
  eexists. split; [reflexivity|]. simpl. by rewrite <- app_assoc.
Qed.

(** X9. After [update_article_metadata] the registry in the process is the
    old one with the article's snapshot folded in, and the suggestions
    collection holds that very registry under the registry's own id: what
    is persisted and what is in memory agree. The two writes are submitted
    in this order, the snapshot first; [articles_inserted] grows by one, and
    the embeddings and the other suggestion documents are not touched. *)
Theorem update_article_metadata_registry (C : Collaborators)
    (vectored_diff : VectoredChunkedArticleDiff.t) (w : World) :
  let new_metadata := ChunkedArticleMetadataOnly.from_vectored_diff vectored_diff in
  ∃ w',
    update_article_metadata vectored_diff w = (Ok tt, w') ∧
    RECENT_ARTICLES w' = update_and_clone (RECENT_ARTICLES w) new_metadata ∧
    SUGGESTIONS_COLLECTION w' !! RecentArticles._id (RECENT_ARTICLES w')
    = Some (RECENT_ARTICLES w') ∧
    (∀ other, other ≠ RecentArticles._id (RECENT_ARTICLES w') →
              SUGGESTIONS_COLLECTION w' !! other = SUGGESTIONS_COLLECTION w !! other) ∧
    requests w'
    = requests w
        ++ [(Metadata, FindOneAndReplace (ChunkedArticleMetadataOnly._id new_metadata) true);
            (Suggestions, FindOneAndReplace (RecentArticles._id (RECENT_ARTICLES w')) true)] ∧
    METRICS w' !!! "articles_inserted" = METRICS w !!! "articles_inserted" + 1 ∧
    EMBEDDING_COLLECTION w' = EMBEDDING_COLLECTION w.
Proof.
  intros new_metadata.
  destruct (update_article_metadata_effects vectored_diff w)
    as (w' & Hrun & _ & Hrec & Hsug & Hemb & Hreq & Hmet & _).
  exists w'. split; [done|]. split; [done|]. rewrite Hrec, Hsug.
  split; [apply lookup_insert_eq|].
  split; [intros other Hother; by apply lookup_insert_ne|].
  split; [done|]. split; [|done]. rewrite Hmet. by read_counters.
Qed.

(** ** [store_article_diff] when it returns *)

Lemma store_article_diff_returned {C : Collaborators}
    (article_diff : VectoredChunkedArticleDiff.t) (w w' : World)
    (res : VectoredChunkedArticleDiff.t) :
  store_article_diff article_diff w = (Ok res, w') →
  let new_chunks := VectoredChunkedArticleDiff.new_chunks article_diff in
  let deleted_chunks := VectoredChunkedArticleDiff.deleted_chunks article_diff in
  let new_metadata := ChunkedArticleMetadataOnly.from_vectored_diff article_diff in
  let run := bulk_inserts (EMBEDDING_COLLECTION w)
               (documents_of <$> batch_list new_chunks batch_size) in
  Forall tolerated run.1 ∧
  requests w'
  = requests w
      ++ (insert_request <$> batch_list new_chunks batch_size)
      ++ (delete_request <$> batch_list deleted_chunks batch_size)
      ++ [(Metadata, FindOneAndReplace (ChunkedArticleMetadataOnly._id new_metadata) true);
          (Suggestions, FindOneAndReplace (RecentArticles._id (RECENT_ARTICLES w')) true)] ∧
  (∀ k, k ∈ ChunkMetadata.hash <$> deleted_chunks → EMBEDDING_COLLECTION w' !! k = None) ∧
  (∀ k, k ∉ ChunkMetadata.hash <$> deleted_chunks → EMBEDDING_COLLECTION w' !! k = run.2 !! k) ∧
  METADATA_COLLECTION w'
  = <[ChunkedArticleMetadataOnly._id new_metadata := new_metadata]> (METADATA_COLLECTION w) ∧
  METRICS w' !!! "chunks_inserted" = METRICS w !!! "chunks_inserted" + length new_chunks ∧
  METRICS w' !!! "chunks_deleted" = METRICS w !!! "chunks_deleted" + length deleted_chunks ∧
  METRICS w' !!! "articles_inserted" = METRICS w !!! "articles_inserted" + 1 ∧
  res = article_diff.
Proof.
  intros Hstore new_chunks deleted_chunks new_metadata run.
  unfold store_article_diff in Hstore. unfold bind at 1 in Hstore.
  destruct (insert_vectored_chunks _ w) as [[[]|e] w1] eqn:Hins; [|discriminate].
  destruct (insert_vectored_chunks_returned _ _ _ Hins)
    as (Hall & Hemb1 & Hreq1 & Hmeta1 & _ & _ & Hcount1 & _ & Hoth1).
  unfold bind at 1 in Hstore.
  destruct (delete_vectored_chunks_effects deleted_chunks w1)
    as (w2 & Hdel & Hreq2 & Hgone & Hkept & Hmeta2 & _ & _ & Hmet2).
  fold deleted_chunks in Hstore. rewrite Hdel in Hstore.
  unfold bind at 1 in Hstore.
  destruct (update_article_metadata_effects article_diff w2)
    as (w3 & Hupd & Hmeta3 & Hrec3 & _ & Hemb3 & Hreq3 & Hmet3 & _).
  rewrite Hupd in Hstore. unfold ret in Hstore. injection Hstore as <- <-.
  split; [exact Hall|]. split.
  { rewrite Hreq3, Hreq2, Hreq1, Hrec3. by rewrite <- !app_assoc. }
  split; [intros k Hk; rewrite Hemb3; by apply Hgone|].
  split; [intros k Hk; rewrite Hemb3, Hkept by done; by rewrite Hemb1|].
  split; [by rewrite Hmeta3, Hmeta2, Hmeta1|].
  rewrite Hmet3, Hmet2. split; [|split; [|split; [|done]]].
  - read_counters. exact Hcount1.
  - read_counters. unfold lookup_total, map_lookup_total. by rewrite Hoth1.
  - read_counters. unfold lookup_total, map_lookup_total. by rewrite Hoth1.
Qed.

(** X10. When [store_article_diff] returns, the store was written in this
    order: the bulk inserts of the new chunks, the deletes of the deleted
    chunks, the snapshot of the article, the registry. Afterwards no hash
    of a deleted chunk is stored (not even one that a new chunk of the same
    diff carries), the snapshot of the article is the new one, the snapshots
    of the other articles are as before, and the counters
    [chunks_inserted], [chunks_deleted] and [articles_inserted] have grown
    by the number of new chunks, of deleted chunks, and by one. *)
Theorem store_article_diff_writes (C : Collaborators)
    (article_diff : VectoredChunkedArticleDiff.t) (w w' : World)
    (res : VectoredChunkedArticleDiff.t) :
  store_article_diff article_diff w = (Ok res, w') →
  let new_chunks := VectoredChunkedArticleDiff.new_chunks article_diff in
  let deleted_chunks := VectoredChunkedArticleDiff.deleted_chunks article_diff in
  let url := article_url (VectoredChunkedArticleDiff.chunked_article article_diff) in
  requests w'
  = requests w
      ++ (insert_request <$> batch_list new_chunks batch_size)
      ++ (delete_request <$> batch_list deleted_chunks batch_size)
      ++ [(Metadata, FindOneAndReplace url true);
          (Suggestions, FindOneAndReplace (RecentArticles._id (RECENT_ARTICLES w')) true)] ∧
  (∀ meta, meta ∈ deleted_chunks →
           EMBEDDING_COLLECTION w' !! ChunkMetadata.hash meta = None) ∧
  METADATA_COLLECTION w' !! url
  = Some (ChunkedArticleMetadataOnly.from_vectored_diff article_diff) ∧
  (∀ other, other ≠ url →
            METADATA_COLLECTION w' !! other = METADATA_COLLECTION w !! other) ∧
  METRICS w' !!! "chunks_inserted" = METRICS w !!! "chunks_inserted" + length new_chunks ∧
  METRICS w' !!! "chunks_deleted" = METRICS w !!! "chunks_deleted" + length deleted_chunks ∧
  METRICS w' !!! "articles_inserted" = METRICS w !!! "articles_inserted" + 1.
Proof.
  intros Hstore new_chunks deleted_chunks url.
  destruct (store_article_diff_returned _ _ _ _ Hstore)
    as (_ & Hreq & Hgone & _ & Hmeta & Hins & Hdel & Hart & _).
  split; [exact Hreq|]. split.
  { intros meta Hin. apply Hgone. by apply list_elem_of_fmap_2. }
  rewrite Hmeta. split; [apply lookup_insert_eq|].
  split; [intros other Hother; by apply lookup_insert_ne|].
  done.
Qed.

(** Three new units and one chunk to delete, on the in-memory store. *)
Lemma store_article_diff_writes_sample :
  ∃ res w',
    store_article_diff (C:=mem_collaborators)
      {| VectoredChunkedArticleDiff.chunked_article := article_v1;
         VectoredChunkedArticleDiff.new_chunks := sample_units 3;
         VectoredChunkedArticleDiff.deleted_chunks :=
           [Chunk.metadata (VectoredChunk.chunk (sample_unit 7))] |}
      (world_with_unit 7)
    = (Ok res, w') ∧
    length (requests w') = 4 ∧
    EMBEDDING_COLLECTION w' !! unit_text 7 = None ∧
    METRICS w' !!! "chunks_inserted" = 3.
Proof.
  destruct (store_article_diff (C:=mem_collaborators)
      {| VectoredChunkedArticleDiff.chunked_article := article_v1;
         VectoredChunkedArticleDiff.new_chunks := sample_units 3;
         VectoredChunkedArticleDiff.deleted_chunks :=
           [Chunk.metadata (VectoredChunk.chunk (sample_unit 7))] |}
      (world_with_unit 7)) as [[res|e] w'] eqn:Hstore;
    [|vm_compute in Hstore; discriminate].
  destruct (store_article_diff_writes mem_collaborators _ _ _ _ Hstore)
    as (Hreq & Hgone & _ & _ & Hins & _).
  exists res, w'. split; [reflexivity|]. split; [|split].
  - rewrite Hreq. reflexivity.
  - apply (Hgone (Chunk.metadata (VectoredChunk.chunk (sample_unit 7)))). left.
  - rewrite Hins. reflexivity.
Defined.

(** Two units, the first already stored and the second too large for the
    store: the collision is counted and logged, and both errors are
    raised. *)
Lemma insert_batch_mixed_errors_sample :
  ∃ w',
    insert_batch (C:=limited_collaborators 1) [sample_unit 7; large_unit] (world_with_unit 7)
    = (Raise (ValueError [exists_error (unit_text 7); too_large_error "h-long"]), w') ∧
    METRICS w' !!! "chunk_collision" = 1 ∧
    length (existing_chunks_log w') = 2.
Proof.
  destruct (insert_batch_mixed_errors (C:=limited_collaborators 1)
              [sample_unit 7; large_unit] (world_with_unit 7))
    as (w' & Hrun & Hcol & Hlog & _).
  - vm_compute. discriminate.
  - vm_compute. apply Exists_cons_tl, Exists_cons_hd. discriminate.
  - exists w'. split; [exact Hrun|]. split; [exact Hcol|].
    rewrite Hlog. reflexivity.
Defined.

(** Twenty units, one of them already stored: twenty are counted. *)
Lemma insert_counts_submitted_sample :
  ∃ w',
    insert_vectored_chunks (C:=mem_collaborators) (sample_units 20) (world_with_unit 7)
    = (Ok tt, w') ∧
    METRICS w' !!! "chunks_inserted" = 20 ∧
    size (EMBEDDING_COLLECTION w') = 20.
Proof.
  destruct (insert_vectored_chunks (C:=mem_collaborators) (sample_units 20)
              (world_with_unit 7)) as [[[]|e] w'] eqn:Hrun;
    [|vm_compute in Hrun; discriminate].
  destruct (insert_counts_submitted (C:=mem_collaborators) _ _ _ Hrun)
    as (_ & _ & Hcount & _).
  exists w'. split; [reflexivity|]. split; [exact Hcount|].
  apply (f_equal snd) in Hrun. cbn [snd] in Hrun. rewrite <- Hrun.
  vm_compute. reflexivity.
Defined.

(** ** Bulk inserts on the in-memory store *)

Lemma dom_mem_insert_many (coll : gmap string EmbeddingDocument.t)
    (docs : list EmbeddingDocument.t) :
  dom (mem_insert_many coll docs).1
  = dom coll ∪ list_to_set (EmbeddingDocument._id <$> docs).
Proof.
  revert coll. induction docs as [|d docs IH]; intros coll.
  - cbn [mem_insert_many fst]. rewrite fmap_nil, list_to_set_nil. set_solver.
  - cbn [mem_insert_many]. rewrite fmap_cons, list_to_set_cons.
    destruct (coll !! EmbeddingDocument._id d) eqn:Hl; cbn [fst]; rewrite IH.
    + assert (EmbeddingDocument._id d ∈ dom coll) by (apply elem_of_dom; by eexists).
      set_solver.
    + rewrite dom_insert_L. set_solver.
Qed.

Section OnMemStore.
Variable get : list string → result (list Vector).
Variable fold : RecentArticles.t → ChunkedArticleMetadataOnly.t → RecentArticles.t.

Lemma bulk_inserts_mem (coll : gmap string EmbeddingDocument.t)
    (batches : list (list EmbeddingDocument.t)) :
  let run := bulk_inserts (C:=on_mem_store get fold) coll batches in
  Forall tolerated run.1 ∧
  dom run.2 = dom coll ∪ list_to_set (EmbeddingDocument._id <$> concat batches) ∧
  (∀ k d, coll !! k = Some d → run.2 !! k = Some d).
Proof.
  revert coll. induction batches as [|b bs IH]; intros coll.
  - cbn [bulk_inserts fst snd concat]. rewrite fmap_nil, list_to_set_nil.
    split; [constructor|]. split; [set_solver | done].
  - cbn [bulk_inserts fst snd insert_many on_mem_store].
    destruct (IH (mem_insert_many coll b).1) as (Hall & Hdom & Hkeep).
    cbn [insert_many on_mem_store] in Hall, Hdom, Hkeep.
    split; [|split].
    + constructor; [apply mem_insert_many_tolerated | exact Hall].
    + rewrite Hdom, dom_mem_insert_many, concat_cons, fmap_app, list_to_set_app_L.
      set_solver.
    + intros k d Hk. by apply Hkeep, mem_insert_many_keeps.
Qed.

Lemma ids_of_batches (vectored_chunks : list VectoredChunk.t) :
  list_to_set (C:=gset string)
    (EmbeddingDocument._id
       <$> concat (documents_of <$> batch_list vectored_chunks batch_size))
  = hashes (VectoredChunk.chunk <$> vectored_chunks).
Proof.
  assert (Hconcat : ∀ bs : list (list VectoredChunk.t),
            concat (documents_of <$> bs) = documents_of (concat bs)).
  { induction bs as [|b bs IH]; [done|].
    rewrite fmap_cons, !concat_cons, IH. unfold documents_of. by rewrite fmap_app. }
  rewrite Hconcat. unfold batch_list, batch_size.
  rewrite concat_batch_list_from by lia.
  unfold hashes, documents_of. by rewrite <- !list_fmap_compose.
Qed.

(** X11. On the in-memory store [insert_vectored_chunks] never aborts:
    whatever is already stored, it returns; afterwards the stored hashes
    are those stored before together with the hashes of the units given, and
    a document that was stored before is still the same document (a unit
    whose hash is taken does not overwrite it). *)
Theorem insert_on_mem_store (vectored_chunks : list VectoredChunk.t) (w : World) :
  ∃ w',
    insert_vectored_chunks (C:=on_mem_store get fold) vectored_chunks w = (Ok tt, w') ∧
    dom (EMBEDDING_COLLECTION w')
    = dom (EMBEDDING_COLLECTION w) ∪ hashes (VectoredChunk.chunk <$> vectored_chunks) ∧
    (∀ k d, EMBEDDING_COLLECTION w !! k = Some d → EMBEDDING_COLLECTION w' !! k = Some d) ∧
    (∀ vc, vc ∈ vectored_chunks →
           is_Some (EMBEDDING_COLLECTION w' !! chunk_hash (VectoredChunk.chunk vc))).
Proof.
  destruct (bulk_inserts_mem (EMBEDDING_COLLECTION w)
              (documents_of <$> batch_list vectored_chunks batch_size))
    as (Hall & Hdom & Hkeep).
  destruct (insert_vectored_chunks_tolerated (C:=on_mem_store get fold)
              vectored_chunks w Hall) as (w' & Hrun & Hemb & _).
  rewrite ids_of_batches in Hdom.
  exists w'. split; [exact Hrun|]. rewrite Hemb. split; [exact Hdom|].
  split; [exact Hkeep|].
  intros vc Hvc. apply elem_of_dom. rewrite Hdom. apply elem_of_union_r, elem_of_hashes.
  apply list_elem_of_fmap_2. by apply list_elem_of_fmap_2.
Qed.

End OnMemStore.

(** ** One item through the five steps *)

Section OneItem.
Context {S : Sources} {C : Collaborators}.

(** The chunked article does not depend on the world, and chunking leaves
    the store alone. *)
Lemma chunk_article_effects (article : Article.t) :
  ∃ ca,
    ChunkedArticle.article ca = article ∧
    ∀ w, ∃ w',
      chunk_article article w = (Ok ca, w') ∧
      EMBEDDING_COLLECTION w' = EMBEDDING_COLLECTION w ∧
      METADATA_COLLECTION w' = METADATA_COLLECTION w ∧
      SUGGESTIONS_COLLECTION w' = SUGGESTIONS_COLLECTION w ∧
      RECENT_ARTICLES w' = RECENT_ARTICLES w ∧
      requests w' = requests w.
Proof.
  unfold chunk_article, METRICS_update_chunks, modify, bind, ret.
  eexists. split; [|intros w; eexists; split; [reflexivity | done]].
  reflexivity.
Qed.

Lemma vectorize_diff_effects (article_diff : ChunkedArticleDiff.t) (w w' : World)
    (vd : VectoredChunkedArticleDiff.t) :
  vectorize_diff article_diff w = (Ok vd, w') →
  ∃ vectors,
    get_embeddings (Chunk.content <$> ChunkedArticleDiff.new_chunks article_diff)
    = Ok vectors ∧
    VectoredChunkedArticleDiff.chunked_article vd
    = ChunkedArticleDiff.chunked_article article_diff ∧
    VectoredChunk.chunk <$> VectoredChunkedArticleDiff.new_chunks vd
    = take (length vectors) (ChunkedArticleDiff.new_chunks article_diff) ∧
    VectoredChunkedArticleDiff.deleted_chunks vd
    = ChunkedArticleDiff.deleted_chunks article_diff ∧
    EMBEDDING_COLLECTION w' = EMBEDDING_COLLECTION w ∧
    METADATA_COLLECTION w' = METADATA_COLLECTION w ∧
    SUGGESTIONS_COLLECTION w' = SUGGESTIONS_COLLECTION w ∧
    RECENT_ARTICLES w' = RECENT_ARTICLES w ∧
    requests w' = requests w.
Proof.
  unfold vectorize_diff, embeddings_get_embeddings, bind.
  destruct (get_embeddings _) as [vectors|e]; [|discriminate].
  unfold METRICS_update_chunks, modify, ret. intros Hrun. injection Hrun as <- <-.
  exists vectors. split; [done|]. split; [done|]. split; [|done].
  cbn [VectoredChunkedArticleDiff.new_chunks].
  rewrite (fmap_zip_with_take_r _ _ id) by done. apply list_fmap_id.
Qed.

(** A pass that returned went through every step. *)
Lemma process_item_returned (meta : ArticleMetadata.t) (w w' : World)
    (vd : VectoredChunkedArticleDiff.t) :
  process_item meta w = (Ok vd, w') →
  ∃ article ca wc d wd vdz wv,
    scrape_article meta = Ok article ∧
    chunk_article article w = (Ok ca, wc) ∧
    calc_chunk_diff ca wc = (Ok d, wd) ∧
    vectorize_diff d wd = (Ok vdz, wv) ∧
    store_article_diff vdz wv = (Ok vd, w').
Proof.
  unfold process_item, load_article. unfold bind at 1.
  destruct (scrape_article meta) as [article|e]; [|discriminate].
  unfold bind at 1. destruct (chunk_article article w) as [[ca|e] wc] eqn:Hc; [|discriminate].
  unfold bind at 1. destruct (calc_chunk_diff ca wc) as [[d|e] wd] eqn:Hd; [|discriminate].
  unfold bind at 1. destruct (vectorize_diff d wd) as [[vdz|e] wv] eqn:Hv; [|discriminate].
  intros Hstore. by exists article, ca, wc, d, wd, vdz, wv.
Qed.

End OneItem.

(** ** A pass, and the pass after it *)

Section Passes.
Context {S : Sources} {C : Collaborators}.

Lemma vectorize_diff_nothing_new (article_diff : ChunkedArticleDiff.t)
    (vectors : list Vector) (w : World) :
  ChunkedArticleDiff.new_chunks article_diff = [] →
  get_embeddings [] = Ok vectors →
  ∃ w',
    vectorize_diff article_diff w
    = (Ok {| VectoredChunkedArticleDiff.chunked_article :=
               ChunkedArticleDiff.chunked_article article_diff;
             VectoredChunkedArticleDiff.new_chunks := [];
             VectoredChunkedArticleDiff.deleted_chunks :=
               ChunkedArticleDiff.deleted_chunks article_diff |}, w') ∧
    EMBEDDING_COLLECTION w' = EMBEDDING_COLLECTION w ∧
    METADATA_COLLECTION w' = METADATA_COLLECTION w ∧
    requests w' = requests w.
Proof.
  intros Hnew Hget. unfold vectorize_diff, embeddings_get_embeddings, bind.
  rewrite Hnew, fmap_nil, Hget. unfold METRICS_update_chunks, modify, ret.
  rewrite zip_with_nil_r. eexists. split; [reflexivity | done].
Qed.

Lemma store_article_diff_nothing_to_write (article_diff : VectoredChunkedArticleDiff.t)
    (w : World) :
  VectoredChunkedArticleDiff.new_chunks article_diff = [] →
  VectoredChunkedArticleDiff.deleted_chunks article_diff = [] →
  let new_metadata := ChunkedArticleMetadataOnly.from_vectored_diff article_diff in
  ∃ w',
    store_article_diff article_diff w = (Ok article_diff, w') ∧
    EMBEDDING_COLLECTION w' = EMBEDDING_COLLECTION w ∧
    METADATA_COLLECTION w'
    = <[ChunkedArticleMetadataOnly._id new_metadata := new_metadata]> (METADATA_COLLECTION w) ∧
    requests w'
    = requests w
        ++ [(Metadata, FindOneAndReplace (ChunkedArticleMetadataOnly._id new_metadata) true);
            (Suggestions, FindOneAndReplace (RecentArticles._id (RECENT_ARTICLES w')) true)].
Proof.
  intros Hnew Hdel new_metadata.
  unfold store_article_diff, insert_vectored_chunks, delete_vectored_chunks.
  rewrite Hnew, Hdel. unfold batch_list. cbn [length batch_list_from for_each].
  unfold bind at 1 2. unfold ret at 1. unfold METRICS_update_database at 1. unfold modify at 1.
  unfold bind at 1 2. unfold ret at 1. unfold METRICS_update_database at 1. unfold modify at 1.
  unfold bind at 1.
  match goal with |- context [update_article_metadata article_diff ?w0] =>
    destruct (update_article_metadata_effects article_diff w0)
      as (w' & -> & Hmeta & Hrec & _ & Hemb & Hreq & _)
  end.
  exists w'. split; [done|]. split; [done|]. split; [done|]. by rewrite Hrec.
Qed.

(** X12. A second pass over an item whose source has not changed writes no
    embedding: when a pass over an item returned and the item is processed
    again (the scraper and the splitter answer as before, and the embedding
    service answers the empty list of texts), the second pass returns with no
    new and no deleted chunk, submits only the read of the snapshot and the
    two replacements of the snapshot and the registry, and leaves the
    embeddings and every snapshot as the first pass left them. *)
Theorem process_item_twice (meta : ArticleMetadata.t) (w w1 : World)
    (vd : VectoredChunkedArticleDiff.t) (vectors : list Vector) :
  process_item meta w = (Ok vd, w1) →
  get_embeddings [] = Ok vectors →
  let url := article_url (VectoredChunkedArticleDiff.chunked_article vd) in
  ∃ vd2 w2,
    process_item meta w1 = (Ok vd2, w2) ∧
    VectoredChunkedArticleDiff.chunked_article vd2
    = VectoredChunkedArticleDiff.chunked_article vd ∧
    VectoredChunkedArticleDiff.new_chunks vd2 = [] ∧
    VectoredChunkedArticleDiff.deleted_chunks vd2 = [] ∧
    requests w2
    = requests w1
        ++ [(Metadata, FindOne url);
            (Metadata, FindOneAndReplace url true);
            (Suggestions, FindOneAndReplace (RecentArticles._id (RECENT_ARTICLES w2)) true)] ∧
    EMBEDDING_COLLECTION w2 = EMBEDDING_COLLECTION w1 ∧
    METADATA_COLLECTION w2 = METADATA_COLLECTION w1.
Proof.
  intros Hfirst Hget url.
  destruct (process_item_returned _ _ _ _ Hfirst)
    as (article & ca & wc & d & wd & vdz & wv & Hscrape & Hchunk & Hcalc & Hvec & Hstore).
  destruct (chunk_article_effects article) as (ca0 & _ & Hchunks).
  destruct (Hchunks w) as (wc0 & Hchunk0 & _). rewrite Hchunk in Hchunk0.
  injection Hchunk0 as <- _.
  destruct (calc_chunk_diff_run ca wc) as [wd0 Hcalc0]. rewrite Hcalc in Hcalc0.
  assert (Hd : ChunkedArticleDiff.chunked_article d = ca).
  { injection Hcalc0 as -> _. by destruct (METADATA_COLLECTION wc !! _). }
  destruct (vectorize_diff_effects _ _ _ _ Hvec) as (_ & _ & Hca & _).
  rewrite Hd in Hca.
  destruct (store_article_diff_returned _ _ _ _ Hstore)
    as (_ & _ & _ & _ & Hmeta1 & _ & _ & _ & Hres).
  subst vd. subst url. rewrite Hca.
  assert (Hsnap : METADATA_COLLECTION w1 !! article_url ca
                  = Some (ChunkedArticleMetadataOnly.from_chunked_article ca)).
  { rewrite Hmeta1. unfold ChunkedArticleMetadataOnly.from_vectored_diff. rewrite Hca.
    apply lookup_insert_eq. }
  destruct (Hchunks w1) as (wc2 & Hchunk2 & Hemb_c & Hmeta_c & _ & _ & Hreq_c).
  destruct (calc_chunk_diff_own_snapshot ca wc2) as [wd2 Hcalc2].
  { by rewrite Hmeta_c. }
  destruct (calc_chunk_diff_effects ca wc2)
    as (d2 & wd2' & Hcalc2' & Hreq_d & Hemb_d & Hmeta_d & _).
  rewrite Hcalc2 in Hcalc2'. injection Hcalc2' as <- <-.
  destruct (vectorize_diff_nothing_new
              {| ChunkedArticleDiff.chunked_article := ca;
                 ChunkedArticleDiff.new_chunks := [];
                 ChunkedArticleDiff.deleted_chunks := [];
                 ChunkedArticleDiff.unchanged_chunks := ChunkedArticle.chunks ca |}
              vectors wd2 eq_refl Hget)
    as (wv2 & Hvec2 & Hemb_v & Hmeta_v & Hreq_v).
  cbn [ChunkedArticleDiff.chunked_article ChunkedArticleDiff.deleted_chunks] in Hvec2.
  destruct (store_article_diff_nothing_to_write
              {| VectoredChunkedArticleDiff.chunked_article := ca;
                 VectoredChunkedArticleDiff.new_chunks := [];
                 VectoredChunkedArticleDiff.deleted_chunks := [] |} wv2 eq_refl eq_refl)
    as (w2 & Hstore2 & Hemb_s & Hmeta_s & Hreq_s).
  eexists _, w2. split.
  { unfold process_item, load_article. unfold bind at 1. rewrite Hscrape.
    unfold bind at 1. rewrite Hchunk2. unfold bind at 1. rewrite Hcalc2.
    unfold bind at 1. rewrite Hvec2. exact Hstore2. }
  split; [done|]. split; [done|]. split; [done|]. split; [|split].
  - rewrite Hreq_s, Hreq_v, Hreq_d, Hreq_c. by rewrite <- app_assoc.
  - by rewrite Hemb_s, Hemb_v, Hemb_d, Hemb_c.
  - rewrite Hmeta_s, Hmeta_v, Hmeta_d, Hmeta_c. by apply insert_id.
Qed.

End Passes.

(** An article scraped twice from the sample sources, on the in-memory
    store. *)
Lemma process_item_twice_sample :
  ∃ vd w1 vd2 w2,
    process_item (S:=sample_sources) (C:=mem_collaborators)
      {| ArticleMetadata.url := "https://en.wikipedia.org/wiki/Rocq" |} empty_world
    = (Ok vd, w1) ∧
    process_item (S:=sample_sources) (C:=mem_collaborators)
      {| ArticleMetadata.url := "https://en.wikipedia.org/wiki/Rocq" |} w1
    = (Ok vd2, w2) ∧
    VectoredChunkedArticleDiff.new_chunks vd2 = [] ∧
    EMBEDDING_COLLECTION w2 = EMBEDDING_COLLECTION w1.
Proof.
  destruct (process_item (S:=sample_sources) (C:=mem_collaborators)
              {| ArticleMetadata.url := "https://en.wikipedia.org/wiki/Rocq" |} empty_world)
    as [[vd|e] w1] eqn:Hfirst; [|vm_compute in Hfirst; discriminate].
  destruct (process_item_twice (S:=sample_sources) (C:=mem_collaborators)
              _ _ _ _ [] Hfirst eq_refl)
    as (vd2 & w2 & Hsecond & _ & Hnew & _ & _ & Hemb & _).
  by exists vd, w1, vd2, w2.
Defined.

(** ** The snapshot and the embeddings after a pass on the in-memory store *)

Section PassOnMemStore.
Context {S : Sources}.
Variable get : list string → result (list Vector).
Variable fold : RecentArticles.t → ChunkedArticleMetadataOnly.t → RecentArticles.t.

(** X13. On the in-memory store, a pass keeps the snapshot of the article
    it processes backed by the embeddings: if the embedding service returns
    at least one vector per text, and every hash of the snapshot stored for
    the article (if any) is a stored embedding before the pass, then after a
    pass that returns the stored snapshot is the one of the current chunks
    and every hash it lists is a stored embedding. *)
Theorem process_item_keeps_snapshot_stored (meta : ArticleMetadata.t) (w w' : World)
    (vd : VectoredChunkedArticleDiff.t) :
  (∀ texts vectors, get texts = Ok vectors → length texts ≤ length vectors) →
  process_item (C:=on_mem_store get fold) meta w = (Ok vd, w') →
  let ca := VectoredChunkedArticleDiff.chunked_article vd in
  snapshot_stored w (article_url ca) →
  METADATA_COLLECTION w' !! article_url ca
  = Some (ChunkedArticleMetadataOnly.from_chunked_article ca) ∧
  snapshot_stored w' (article_url ca).
Proof.
  intros Hget Hpass ca0 Hstored.
  destruct (process_item_returned (C:=on_mem_store get fold) _ _ _ _ Hpass)
    as (article & ca & wc & d & wd & vdz & wv & Hscrape & Hchunk & Hcalc & Hvec & Hstore).
  destruct (chunk_article_effects (S:=S) article) as (ca1 & _ & Hchunks).
  destruct (Hchunks w) as (wc1 & Hchunk1 & Hemb_c & Hmeta_c & _).
  rewrite Hchunk in Hchunk1. injection Hchunk1 as <- <-.
  destruct (calc_chunk_diff_effects ca wc)
    as (d1 & wd1 & Hcalc1 & _ & Hemb_d & Hmeta_d & _).
  rewrite Hcalc in Hcalc1. injection Hcalc1 as <- <-.
  destruct (calc_chunk_diff_run ca wc) as [wd2 Hrun]. rewrite Hcalc in Hrun.
  injection Hrun as Hd _.
  destruct (vectorize_diff_effects (C:=on_mem_store get fold) _ _ _ _ Hvec)
    as (vectors & Hvs & Hca & Hnew & Hdel & Hemb_v & Hmeta_v & _).
  cbn [get_embeddings on_mem_store] in Hvs.
  apply Hget in Hvs. rewrite length_fmap in Hvs. rewrite take_ge in Hnew by done.
  destruct (store_article_diff_returned (C:=on_mem_store get fold) _ _ _ _ Hstore)
    as (_ & _ & Hgone & Hkept & Hmeta_s & _ & _ & _ & Hres).
  destruct (bulk_inserts_mem get fold (EMBEDDING_COLLECTION wv)
              (documents_of
                 <$> batch_list (VectoredChunkedArticleDiff.new_chunks vdz) batch_size))
    as (_ & Hdom & _).
  rewrite ids_of_batches, Hnew in Hdom.
  assert (Hcad : ChunkedArticleDiff.chunked_article d = ca).
  { rewrite Hd. by destruct (METADATA_COLLECTION wc !! _). }
  subst ca0. subst vd. rewrite Hca, Hcad in *.
  assert (Hsnap : METADATA_COLLECTION w' !! article_url ca
                  = Some (ChunkedArticleMetadataOnly.from_chunked_article ca)).
  { rewrite Hmeta_s. unfold ChunkedArticleMetadataOnly.from_vectored_diff.
    rewrite Hca. apply lookup_insert_eq. }
  split; [exact Hsnap|].
  intros snapshot Hsnapshot. rewrite Hsnap in Hsnapshot. injection Hsnapshot as <-.
  cbn [ChunkedArticleMetadataOnly.from_chunked_article
       ChunkedArticleMetadataOnly.chunks_metadata].
  rewrite dom_metadata_by_hash. intros h Hh.
  assert (Hwc : METADATA_COLLECTION wc !! article_url ca
                = METADATA_COLLECTION w !! article_url ca) by (by rewrite Hmeta_c).
  unfold article_url in Hwc.
  assert (Hcur : (h ∉ ChunkMetadata.hash <$> ChunkedArticleDiff.deleted_chunks d)
                 ∧ (h ∈ dom (EMBEDDING_COLLECTION wv)
                          ∪ hashes (ChunkedArticleDiff.new_chunks d))).
  { rewrite Hd. destruct (METADATA_COLLECTION wc !! _) as [prev|] eqn:Hprev;
      cbn [ChunkedArticleDiff.deleted_chunks ChunkedArticleDiff.new_chunks].
    - split.
      + intros Hin. apply list_elem_of_fmap in Hin as (m & -> & Hm).
        apply list_elem_of_filter in Hm as [Hout _]. by apply Hout.
      + destruct (decide (h ∈ dom (ChunkedArticleMetadataOnly.chunks_metadata prev)))
          as [Hold | Hfresh].
        * apply elem_of_union_l. rewrite Hemb_v, Hemb_d, Hemb_c.
          apply (Hstored prev); [|done]. unfold article_url. by rewrite <- Hwc.
        * apply elem_of_union_r. apply elem_of_hashes in Hh.
          apply list_elem_of_fmap in Hh as (c & -> & Hc).
          apply elem_of_hashes, list_elem_of_fmap_2. by apply list_elem_of_filter.
    - split; [by rewrite fmap_nil; apply not_elem_of_nil|]. by apply elem_of_union_r. }
  destruct Hcur as [Hnot Hin].
  apply elem_of_dom. rewrite Hkept by (by rewrite Hdel).
  apply elem_of_dom. by rewrite Hdom.
Qed.

End PassOnMemStore.

(** A first pass from the sample sources, on the empty in-memory store. *)
Lemma process_item_keeps_snapshot_stored_sample :
  ∃ vd w',
    process_item (S:=sample_sources) (C:=on_mem_store unit_embeddings push_recent)
      {| ArticleMetadata.url := "https://en.wikipedia.org/wiki/Rocq" |} empty_world
    = (Ok vd, w') ∧
    snapshot_stored w' (article_url (VectoredChunkedArticleDiff.chunked_article vd)).
Proof.
  destruct (process_item (S:=sample_sources) (C:=on_mem_store unit_embeddings push_recent)
              {| ArticleMetadata.url := "https://en.wikipedia.org/wiki/Rocq" |} empty_world)
    as [[vd|e] w'] eqn:Hpass; [|vm_compute in Hpass; discriminate].
  exists vd, w'. split; [reflexivity|].
  apply (process_item_keeps_snapshot_stored (S:=sample_sources)
           unit_embeddings push_recent
           {| ArticleMetadata.url := "https://en.wikipedia.org/wiki/Rocq" |}
           empty_world w' vd).
  - intros texts vectors Hv. unfold unit_embeddings in Hv. injection Hv as <-.
    by rewrite length_fmap.
  - exact Hpass.
  - assert (Hurl : article_url (VectoredChunkedArticleDiff.chunked_article vd)
                   = "https://en.wikipedia.org/wiki/Rocq").
    { apply (f_equal fst) in Hpass. cbn [fst] in Hpass.
      assert (Hvd : Ok (article_url (VectoredChunkedArticleDiff.chunked_article vd))
                    = match Ok vd with
                      | Ok v => Ok (article_url (VectoredChunkedArticleDiff.chunked_article v))
                      | Raise e => Raise e
                      end) by reflexivity.
      rewrite <- Hpass in Hvd. vm_compute in Hvd. by injection Hvd. }
    rewrite Hurl. intros snapshot Hl. vm_compute in Hl. discriminate.
Defined.

(** ** Feeding in several calls *)

(** X14. Feeding a list in two parts: [process_article_metadata] over
    [l1 ++ l2] is [process_article_metadata] over [l1] followed, when every
    item of [l1] was admitted, by [process_article_metadata] over [l2] on
    the pipeline the first call left; when an item of [l1] was declined, no
    item of [l2] is offered. *)
Theorem process_article_metadata_app (Pipeline Item : Type)
    (put : Pipeline → Item → bool * Pipeline) (p : Pipeline) (l1 l2 : list Item) :
  process_article_metadata put p (l1 ++ l2)
  = if (process_article_metadata put p l1).1
    then process_article_metadata put (process_article_metadata put p l1).2 l2
    else (false, (process_article_metadata put p l1).2).
Proof.
  revert p. induction l1 as [|x l1 IH]; intros p.
  - reflexivity.
  - cbn [app process_article_metadata].
    destruct (put p x) as [admitted p1]. cbn [fst snd].
    destruct admitted; [apply IH | reflexivity].
Qed.

(** ** Edge cases of the diff *)

Lemma NoDup_snapshot_values (m : gmap string ChunkMetadata.t) :
  keyed_by_hash m → NoDup (map_to_list m).*2.
Proof.
  intros Hkey. apply NoDup_fmap_2_strong; [|apply NoDup_map_to_list].
  intros [k1 m1] [k2 m2] H1 H2 Heq. cbn [snd] in Heq. subst m2.
  apply elem_of_map_to_list in H1, H2.
  by rewrite <- (Hkey _ _ H1), <- (Hkey _ _ H2).
Qed.

(** X15. An article that has no chunk left: against a stored snapshot
    [calc_chunk_diff] reports every entry of the snapshot as deleted, and
    nothing new or unchanged. *)
Theorem calc_chunk_diff_no_chunks (ca : ChunkedArticle.t) (w : World)
    (prev : ChunkedArticleMetadataOnly.t) :
  ChunkedArticle.chunks ca = [] →
  METADATA_COLLECTION w !! article_url ca = Some prev →
  ∃ d w',
    calc_chunk_diff ca w = (Ok d, w') ∧
    ChunkedArticleDiff.new_chunks d = [] ∧
    ChunkedArticleDiff.unchanged_chunks d = [] ∧
    ChunkedArticleDiff.deleted_chunks d
    = (map_to_list (ChunkedArticleMetadataOnly.chunks_metadata prev)).*2 ∧
    length (ChunkedArticleDiff.deleted_chunks d)
    = size (ChunkedArticleMetadataOnly.chunks_metadata prev).
Proof.
  intros Hempty Hprev. destruct (calc_chunk_diff_run ca w) as [w' Hrun].
  unfold article_url in Hprev. rewrite Hprev, Hempty in Hrun.
  eexists _, w'. split; [exact Hrun|].
  cbn [ChunkedArticleDiff.new_chunks ChunkedArticleDiff.deleted_chunks
       ChunkedArticleDiff.unchanged_chunks].
  split; [done|]. split; [done|].
  match goal with |- ?deleted = ?values ∧ _ =>
    assert (Hall : deleted = values)
  end.
  { apply filter_all. intros meta _. unfold hashes. set_solver. }
  rewrite Hall. split; [done|].
  by rewrite length_fmap, length_map_to_list.
Qed.

(** An article of no chunk against the snapshot of three chunks. *)
Lemma calc_chunk_diff_no_chunks_sample :
  ∃ d w',
    calc_chunk_diff {| ChunkedArticle.article := sample_article "";
                       ChunkedArticle.chunks := [] |} (world_with_snapshot article_v1)
    = (Ok d, w') ∧
    length (ChunkedArticleDiff.deleted_chunks d) = 3.
Proof.
  destruct (calc_chunk_diff_no_chunks
              {| ChunkedArticle.article := sample_article ""; ChunkedArticle.chunks := [] |}
              (world_with_snapshot article_v1)
              (ChunkedArticleMetadataOnly.from_chunked_article article_v1))
    as (d & w' & Hrun & _ & _ & _ & Hlen); [reflexivity | vm_compute; reflexivity |].
  exists d, w'. split; [exact Hrun|]. rewrite Hlen. vm_compute. reflexivity.
Defined.

(** X16. A modified chunk is a deleted chunk and a new chunk: when the
    stored snapshot is the one of chunks [l1 ++ old :: l2] with pairwise
    distinct hashes, and the current chunks are [l1 ++ new :: l2] where the
    hash of [new] is none of the old hashes, the diff has exactly [new] as
    new chunk, exactly the metadata of [old] as deleted chunk, and [l1 ++ l2]
    unchanged. *)
Theorem calc_chunk_diff_modified_chunk (article_before article_now : Article.t)
    (l1 l2 : list Chunk.t) (old new : Chunk.t) (w : World) :
  let before := {| ChunkedArticle.article := article_before;
                   ChunkedArticle.chunks := l1 ++ old :: l2 |} in
  let now := {| ChunkedArticle.article := article_now;
                ChunkedArticle.chunks := l1 ++ new :: l2 |} in
  NoDup (chunk_hash <$> l1 ++ old :: l2) →
  chunk_hash new ∉ chunk_hash <$> l1 ++ old :: l2 →
  METADATA_COLLECTION w !! article_url now
  = Some (ChunkedArticleMetadataOnly.from_chunked_article before) →
  ∃ d w',
    calc_chunk_diff now w = (Ok d, w') ∧
    ChunkedArticleDiff.new_chunks d = [new] ∧
    ChunkedArticleDiff.deleted_chunks d = [Chunk.metadata old] ∧
    ChunkedArticleDiff.unchanged_chunks d = l1 ++ l2.
Proof.
  intros before now Hnd Hnew Hprev.
  destruct (calc_chunk_diff_run now w) as [w' Hrun].
  unfold article_url in Hprev. rewrite Hprev in Hrun.
  cbn [ChunkedArticleMetadataOnly.from_chunked_article
       ChunkedArticleMetadataOnly.chunks_metadata ChunkedArticle.chunks before now] in Hrun.
  rewrite dom_metadata_by_hash in Hrun.
  eexists _, w'. split; [exact Hrun|].
  cbn [ChunkedArticleDiff.new_chunks ChunkedArticleDiff.deleted_chunks
       ChunkedArticleDiff.unchanged_chunks].
  rewrite fmap_app, fmap_cons in Hnd, Hnew.
  apply NoDup_app in Hnd as (Hnd1 & Hsep & Hnd2).
  apply NoDup_cons in Hnd2 as [Hold2 Hnd2].
  rewrite not_elem_of_app, not_elem_of_cons in Hnew. destruct Hnew as (Hn1 & Hno & Hn2).
  assert (Hold1 : chunk_hash old ∉ chunk_hash <$> l1).
  { intros Hin. apply (Hsep _ Hin). left. }
  assert (Hin1 : ∀ c, c ∈ l1 → chunk_hash c ∈ hashes (l1 ++ old :: l2)).
  { intros c Hc. apply elem_of_hashes. rewrite fmap_app. apply elem_of_app. left.
    by apply list_elem_of_fmap_2. }
  assert (Hin2 : ∀ c, c ∈ l2 → chunk_hash c ∈ hashes (l1 ++ old :: l2)).
  { intros c Hc. apply elem_of_hashes. rewrite fmap_app, fmap_cons.
    apply elem_of_app. right. right. by apply list_elem_of_fmap_2. }
  assert (Hout : chunk_hash new ∉ hashes (l1 ++ old :: l2)).
  { rewrite elem_of_hashes, fmap_app, fmap_cons, not_elem_of_app, not_elem_of_cons. done. }
  split; [|split].
  - rewrite filter_app, filter_cons, decide_True by done.
    rewrite (filter_none _ l1), (filter_none _ l2); [done | |].
    + intros c Hc Hnot. by apply Hnot, Hin2.
    + intros c Hc Hnot. by apply Hnot, Hin1.
  - assert (Hlook : ChunkedArticleMetadataOnly.metadata_by_hash (l1 ++ old :: l2)
                      !! chunk_hash old = Some (Chunk.metadata old)).
    { assert (Hm0 : ∀ m : gmap string ChunkMetadata.t,
                m !! chunk_hash old = Some (Chunk.metadata old) →
                foldl (λ m c, <[chunk_hash c:=Chunk.metadata c]> m) m l2
                  !! chunk_hash old = Some (Chunk.metadata old)).
      { clear -Hold2. induction l2 as [|c l2 IH]; intros m Hm; [done|].
        rewrite fmap_cons, not_elem_of_cons in Hold2. destruct Hold2 as [Hne Hold2].
        cbn [foldl]. apply IH; [done|]. by rewrite lookup_insert_ne. }
      unfold ChunkedArticleMetadataOnly.metadata_by_hash.
      rewrite foldl_app. cbn [foldl]. apply Hm0, lookup_insert_eq. }
    apply filter_unique.
    + apply NoDup_snapshot_values, metadata_by_hash_keyed.
    + apply list_elem_of_fmap. exists (chunk_hash old, Chunk.metadata old).
      split; [done|]. by apply elem_of_map_to_list.
    + intros meta Hmeta.
      apply list_elem_of_fmap in Hmeta as ([k m] & -> & Hkm).
      apply elem_of_map_to_list in Hkm. cbn [snd].
      pose proof (metadata_by_hash_keyed _ _ _ Hkm) as Hk.
      rewrite elem_of_hashes, fmap_app, fmap_cons, not_elem_of_app, not_elem_of_cons.
      split.
      * intros (Hk1 & Hkn & Hk2).
        assert (Hdom : k ∈ hashes (l1 ++ old :: l2)).
        { rewrite <- dom_metadata_by_hash. apply elem_of_dom. by eexists. }
        rewrite elem_of_hashes, fmap_app, fmap_cons, elem_of_app, elem_of_cons in Hdom.
        rewrite Hk in Hk1, Hk2.
        destruct Hdom as [? | [Heq | ?]]; [done | | done].
        rewrite Heq, Hlook in Hkm. by injection Hkm.
      * intros ->. fold (chunk_hash old). repeat split; [done | | done].
        intros Heq. apply Hno. by rewrite Heq.
  - rewrite filter_app, filter_cons, decide_False by (intros Hin; by apply Hout).
    rewrite (filter_all _ l1), (filter_all _ l2); done.
Qed.

(** The revision of the sample article: its middle chunk changed. *)
Lemma calc_chunk_diff_modified_chunk_sample :
  ∃ d w',
    calc_chunk_diff article_v2 (world_with_snapshot article_v1) = (Ok d, w') ∧
    ChunkedArticleDiff.new_chunks d = [sample_chunk 1 "xy" "h-xy"] ∧
    ChunkedArticleDiff.deleted_chunks d = [Chunk.metadata (sample_chunk 1 "cd" "h-cd")] ∧
    ChunkedArticleDiff.unchanged_chunks d
    = [sample_chunk 0 "ab" "h-ab"; sample_chunk 2 "ef" "h-ef"].
Proof.
  apply (calc_chunk_diff_modified_chunk (sample_article "abcdef") (sample_article "abxyef")
           [sample_chunk 0 "ab" "h-ab"] [sample_chunk 2 "ef" "h-ef"]
           (sample_chunk 1 "cd" "h-cd") (sample_chunk 1 "xy" "h-xy")
           (world_with_snapshot article_v1)).
  - refine (bool_decide_unpack _ _). vm_compute. exact I.
  - refine (bool_decide_unpack _ _). vm_compute. exact I.
  - vm_compute. reflexivity.
Defined.

(** ** A chunk two articles share *)

(** X17. [store_article_diff] deletes by hash without looking at the other
    articles: when it returns, a deleted chunk whose hash the snapshot of
    another article lists is gone from the embeddings, while that other
    snapshot is unchanged and still lists it. *)
Theorem store_article_diff_deletes_shared_chunk (C : Collaborators)
    (article_diff : VectoredChunkedArticleDiff.t) (w w' : World)
    (res : VectoredChunkedArticleDiff.t) (other : string)
    (snapshot : ChunkedArticleMetadataOnly.t) (meta : ChunkMetadata.t) :
  store_article_diff article_diff w = (Ok res, w') →
  other ≠ article_url (VectoredChunkedArticleDiff.chunked_article article_diff) →
  METADATA_COLLECTION w !! other = Some snapshot →
  meta ∈ VectoredChunkedArticleDiff.deleted_chunks article_diff →
  ChunkMetadata.hash meta ∈ dom (ChunkedArticleMetadataOnly.chunks_metadata snapshot) →
  METADATA_COLLECTION w' !! other = Some snapshot ∧
  EMBEDDING_COLLECTION w' !! ChunkMetadata.hash meta = None ∧
  ¬ snapshot_stored w' other.
Proof.
  intros Hstore Hother Hsnap Hmeta Hshared.
  destruct (store_article_diff_returned _ _ _ _ Hstore)
    as (_ & _ & Hgone & _ & Hmeta' & _).
  assert (Hkept : METADATA_COLLECTION w' !! other = Some snapshot).
  { rewrite Hmeta'. rewrite lookup_insert_ne; [done|]. intros Heq. by apply Hother. }
  assert (Hnone : EMBEDDING_COLLECTION w' !! ChunkMetadata.hash meta = None).
  { apply Hgone. by apply list_elem_of_fmap_2. }
  split; [exact Hkept|]. split; [exact Hnone|].
  intros Hstored. specialize (Hstored snapshot Hkept _ Hshared).
  apply elem_of_dom in Hstored as [doc Hdoc]. congruence.
Qed.

(** The snapshot of one article lists the hash ["h-ab"]; the pass over
    another article deletes the chunk of that hash. *)
Lemma store_article_diff_deletes_shared_chunk_sample :
  ∃ res w',
    store_article_diff (C:=mem_collaborators)
      {| VectoredChunkedArticleDiff.chunked_article :=
           {| ChunkedArticle.article :=
                {| Article.metadata := {| ArticleMetadata.url := "other" |};
                   Article.content := "" |};
              ChunkedArticle.chunks := [] |};
         VectoredChunkedArticleDiff.new_chunks := [];
         VectoredChunkedArticleDiff.deleted_chunks :=
           [Chunk.metadata (sample_chunk 0 "ab" "h-ab")] |}
      (world_with_snapshot article_v1)
    = (Ok res, w') ∧
    ¬ snapshot_stored w' "https://en.wikipedia.org/wiki/Rocq".
Proof.
  destruct (store_article_diff (C:=mem_collaborators)
      {| VectoredChunkedArticleDiff.chunked_article :=
           {| ChunkedArticle.article :=
                {| Article.metadata := {| ArticleMetadata.url := "other" |};
                   Article.content := "" |};
              ChunkedArticle.chunks := [] |};
         VectoredChunkedArticleDiff.new_chunks := [];
         VectoredChunkedArticleDiff.deleted_chunks :=
           [Chunk.metadata (sample_chunk 0 "ab" "h-ab")] |}
      (world_with_snapshot article_v1)) as [[res|e] w'] eqn:Hstore;
    [|vm_compute in Hstore; discriminate].
  exists res, w'. split; [reflexivity|].
  apply (store_article_diff_deletes_shared_chunk mem_collaborators _ _ _ _
           "https://en.wikipedia.org/wiki/Rocq"
           (ChunkedArticleMetadataOnly.from_chunked_article article_v1)
           (Chunk.metadata (sample_chunk 0 "ab" "h-ab")) Hstore).
  - discriminate.
  - vm_compute. reflexivity.
  - left.
  - apply elem_of_dom. eexists. vm_compute. reflexivity.
Defined.
